(** * gobot-brightness: configuration resolution and validation

    Shallow embedding of [internal/config/config.go]: the default builder,
    the environment resolver, the JSON file loader, the two validation
    paths ([Validate], driven by struct tags, and [Validat2e], the explicit
    sequential checks) and the min/max helpers over the stats buckets.

    Conventions.
    - Go's [int] is the 64-bit signed integer; it is carried as [Z].  The
      package only compares integers and divides by the constant 1000, so
      no operation of [config.go] itself can wrap; the wrap-around of
      [strconv] is written out where the library relies on it.
    - Go's [string] is a byte sequence: [string] of the Standard Library.
    - A Go result [(T, error)] is a pair [T * option E]; [None] is [nil].
    - The process environment is a finite map from names to values. *)

From Stdlib Require Import ZArith String Ascii List Lia DecimalString.
From Stdlib Require DecimalPos.
From stdpp Require Import base option strings gmap.

Open Scope string_scope.
Open Scope Z_scope.

(** ** The [strconv] and [strings] functions the package calls *)

Module strconv.

Inductive ErrKind := ErrSyntax | ErrRange.

(** [*strconv.NumError]: the failing function, the input, the cause. *)
Record NumError := mkNumError { Func : string; Num : string; Err : ErrKind }.

Definition syntaxError (fn str : string) : NumError := mkNumError fn str ErrSyntax.
Definition rangeError (fn str : string) : NumError := mkNumError fn str ErrRange.

Definition ParseBool (str : string) : bool * option NumError :=
  if bool_decide (str ∈ ["1"; "t"; "T"; "true"; "TRUE"; "True"]) then (true, None)
  else if bool_decide (str ∈ ["0"; "f"; "F"; "false"; "FALSE"; "False"]) then (false, None)
  else (false, Some (syntaxError "ParseBool" str)).

Definition byte_val (c : ascii) : Z := Z.of_N (N_of_ascii c).

(** [ch -= '0'] on a [byte]: subtraction modulo 256. *)
Definition sub_zero (c : ascii) : Z := (byte_val c - 48) mod 256.

Definition maxUint64 : Z := 2 ^ 64 - 1.

(** The digit loop of [ParseUint(s, 10, 64)], [n] being the accumulator;
    a failure comes with the value the library returns beside it. *)
Fixpoint ParseUint_loop (s0 s : string) (n : Z) : Z * option NumError :=
  match s with
  | EmptyString => (n, None)
  | String c s' =>
      if negb ((48 <=? byte_val c) && (byte_val c <=? 57))
      then (0, Some (syntaxError "ParseUint" s0))
      else
        let d := byte_val c - 48 in
        if maxUint64 / 10 + 1 <=? n
        then (maxUint64, Some (rangeError "ParseUint" s0))
        else
          let n := (n * 10) mod 2 ^ 64 in
          let n1 := (n + d) mod 2 ^ 64 in
          if (n1 <? n) || (maxUint64 <? n1)
          then (maxUint64, Some (rangeError "ParseUint" s0))
          else ParseUint_loop s0 s' n1
  end.

(** [ParseUint(s, 10, 0)]; base 10 admits neither letters nor underscores. *)
Definition ParseUint (s : string) : Z * option NumError :=
  match s with
  | EmptyString => (0, Some (syntaxError "ParseUint" s))
  | _ => ParseUint_loop s s 0
  end.

(** Conversion [int64(un)] of an unsigned 64-bit value, and negation in
    [int64]. *)
Definition to_int64 (u : Z) : Z := (u + 2 ^ 63) mod 2 ^ 64 - 2 ^ 63.

(** [ParseInt(s, 10, 0)]. *)
Definition ParseInt (s : string) : Z * option NumError :=
  match s with
  | EmptyString => (0, Some (syntaxError "ParseInt" s))
  | String c rest =>
      let s0 := s in
      let neg := bool_decide (c = "-"%char) in
      let s := if bool_decide (c = "+"%char) || neg then rest else s in
      let '(un, err) := ParseUint s in
      match err with
      | Some (mkNumError _ _ ErrSyntax) => (0, Some (syntaxError "ParseInt" s0))
      | _ =>
          let cutoff := 2 ^ 63 in
          if negb neg && (cutoff <=? un) then (cutoff - 1, Some (rangeError "ParseInt" s0))
          else if neg && (cutoff <? un) then (- cutoff, Some (rangeError "ParseInt" s0))
          else
            let n := to_int64 un in
            (if neg then to_int64 (- n) else n, None)
      end
  end.

(** The digit loop of the fast path of [Atoi]. *)
Fixpoint Atoi_fast_loop (s : string) (n : Z) : option Z :=
  match s with
  | EmptyString => Some n
  | String c s' =>
      let ch := sub_zero c in
      if 9 <? ch then None else Atoi_fast_loop s' (n * 10 + ch)
  end.

Definition strlen (s : string) : Z := Z.of_nat (String.length s).

(** [Atoi] on a 64-bit platform: a fast path for inputs of fewer than 19
    bytes, [ParseInt] otherwise; the error of the slow path is renamed. *)
Definition Atoi (s : string) : Z * option NumError :=
  if (0 <? strlen s) && (strlen s <? 19) then
    let s0 := s in
    match s with
    | EmptyString => (0, Some (syntaxError "Atoi" s0))
    | String c rest =>
        let signed := bool_decide (c = "-"%char) || bool_decide (c = "+"%char) in
        let s := if signed then rest else s in
        if signed && (strlen s <? 1) then (0, Some (syntaxError "Atoi" s0))
        else
          match Atoi_fast_loop s 0 with
          | None => (0, Some (syntaxError "Atoi" s0))
          | Some n => (if bool_decide (c = "-"%char) then - n else n, None)
          end
    end
  else
    let '(i64, err) := ParseInt s in
    (i64, (fun nerr => mkNumError "Atoi" (Num nerr) (Err nerr)) <$> err).

End strconv.

Module strings.

(** [strings.ToUpper] on ASCII input, the only input the package passes:
    the letters a..z lose 32, every other byte is kept. *)
Definition upper_byte (c : ascii) : ascii :=
  let n := N_of_ascii c in
  if ((97 <=? n) && (n <=? 122))%N then ascii_of_N (n - 32) else c.

Fixpoint ToUpper (s : string) : string :=
  match s with
  | EmptyString => EmptyString
  | String c s' => String (upper_byte c) (ToUpper s')
  end.

End strings.

Module json.
(** The two failures of [json.Unmarshal] on a struct target: malformed
    input, and a JSON value that does not fit the Go type of its field. *)
Inductive Error :=
| SyntaxError (msg : string) (Offset : Z)
| UnmarshalTypeError (Value : string) (Field : string) (Offset : Z).
End json.

(** ** Errors of the package *)

Inductive error :=
| errorString (msg : string)        (* errors.New, fmt.Errorf *)
| numError (e : strconv.NumError)   (* returned unchanged from strconv *)
| jsonError (e : json.Error).       (* returned unchanged from encoding/json *)

(** ** The process environment and the lookup helpers *)

Abbreviation Env := (gmap string string).

Module os.
(** [os.Getenv]: the value, or the empty string when the variable is unset. *)
Definition Getenv (env : Env) (name : string) : string := default "" (env !! name).
End os.

Definition BotName : string := "gobot_lux".

Definition computeEnvName (name : string) : string :=
  strings.ToUpper BotName ++ "_" ++ strings.ToUpper name.

Definition fromEnv (env : Env) (name : string) : string * option error :=
  let name := computeEnvName name in
  let val := os.Getenv env name in
  if bool_decide (val = "") then ("", Some (errorString "not defined"))
  else (val, None).

Definition fromEnvInt (env : Env) (name : string) : Z * option error :=
  let '(val, err) := fromEnv env name in
  match err with
  | Some e => (-1, Some e)
  | None =>
      let '(parsed, err) := strconv.Atoi val in
      match err with
      | Some e => (-1, Some (numError e))
      | None => (parsed, None)
      end
  end.

Definition fromEnvBool (env : Env) (name : string) : bool * option error :=
  let '(val, err) := fromEnv env name in
  match err with
  | Some e => (false, Some e)
  | None =>
      let '(parsed, err) := strconv.ParseBool val in
      match err with
      | Some e => (false, Some (numError e))
      | None => (parsed, None)
      end
  end.

(** ** The data model

    [MqttConfig] and [SensorConfig] are declared in sibling files of the
    package.  Of the broker part, [config.go] reads and writes five string
    fields; whatever else the struct holds is kept in [MqttRest].  The
    sensor part is used through its interface only. *)

Record FieldError := mkFieldError { Namespace : string; Tag : string; Param : string }.

Record MqttConfig (Rest : Type) := mkMqttConfig {
  Host : string;
  Topic : string;
  StatsTopic : string;
  ClientKeyFile : string;
  ClientCertFile : string;
  MqttRest : Rest;
}.
Arguments mkMqttConfig {Rest}.
Arguments Host {Rest}.
Arguments Topic {Rest}.
Arguments StatsTopic {Rest}.
Arguments ClientKeyFile {Rest}.
Arguments ClientCertFile {Rest}.
Arguments MqttRest {Rest}.

Class MqttSchema (Rest : Type) := {
  (** the zero value of the fields [config.go] does not name *)
  MqttRest_zero : Rest;
  (** the failures the validation engine reports for the struct tags of
      the broker part, in field order *)
  MqttConfig_Struct : MqttConfig Rest -> list FieldError;
}.

Class SensorSchema (SensorConfig : Type) := {
  AioPollingIntervalMs : SensorConfig -> Z;
  defaultSensorConfig : SensorConfig;
  (** [SensorConfig.Validate]: [None] is [nil], otherwise the error's message *)
  SensorConfig_Validate : SensorConfig -> option string;
  (** [SensorConfig.ConfigFromEnv]: reads the environment, updates the receiver *)
  SensorConfig_ConfigFromEnv : Env -> SensorConfig -> SensorConfig;
  (** the failures the validation engine reports for the struct tags of
      the sensor part, in field order *)
  SensorConfig_Struct : SensorConfig -> list FieldError;
}.

Record Config (Rest SensorConfig : Type) := mkConfig {
  Placement : string;
  MetricConfig : string;
  IntervalSecs : Z;
  StatIntervals : list Z;
  LogSensor : bool;
  Mqtt : MqttConfig Rest;
  Sensor : SensorConfig;
}.
Arguments mkConfig {Rest SensorConfig}.
Arguments Placement {Rest SensorConfig}.
Arguments MetricConfig {Rest SensorConfig}.
Arguments IntervalSecs {Rest SensorConfig}.
Arguments StatIntervals {Rest SensorConfig}.
Arguments LogSensor {Rest SensorConfig}.
Arguments Mqtt {Rest SensorConfig}.
Arguments Sensor {Rest SensorConfig}.

Definition defaultLogSensor : bool := false.
Definition defaultIntervalSeconds : Z := 30.
Definition defaultMetricConfig : string := ":9194".
Definition maxStatsBucketSeconds : Z := 7200.
Definition defaultStatsBucketsSeconds : list Z := [15; 30; 60; 120; 300; 600; 1800].

Section Resolution.
Context {Rest SensorConfig : Type} `{!MqttSchema Rest} `{!SensorSchema SensorConfig}.

Local Abbreviation Config := (Config Rest SensorConfig).
Local Abbreviation MqttConfig := (MqttConfig Rest).

(** Assignments to single fields, [conf.F = v]. *)
Definition set_Placement (v : string) (c : Config) : Config :=
  mkConfig v (MetricConfig c) (IntervalSecs c) (StatIntervals c) (LogSensor c) (Mqtt c) (Sensor c).
Definition set_MetricConfig (v : string) (c : Config) : Config :=
  mkConfig (Placement c) v (IntervalSecs c) (StatIntervals c) (LogSensor c) (Mqtt c) (Sensor c).
Definition set_IntervalSecs (v : Z) (c : Config) : Config :=
  mkConfig (Placement c) (MetricConfig c) v (StatIntervals c) (LogSensor c) (Mqtt c) (Sensor c).
Definition set_StatIntervals (v : list Z) (c : Config) : Config :=
  mkConfig (Placement c) (MetricConfig c) (IntervalSecs c) v (LogSensor c) (Mqtt c) (Sensor c).
Definition set_LogSensor (v : bool) (c : Config) : Config :=
  mkConfig (Placement c) (MetricConfig c) (IntervalSecs c) (StatIntervals c) v (Mqtt c) (Sensor c).
Definition set_Mqtt (v : MqttConfig) (c : Config) : Config :=
  mkConfig (Placement c) (MetricConfig c) (IntervalSecs c) (StatIntervals c) (LogSensor c) v (Sensor c).
Definition set_Sensor (v : SensorConfig) (c : Config) : Config :=
  mkConfig (Placement c) (MetricConfig c) (IntervalSecs c) (StatIntervals c) (LogSensor c) (Mqtt c) v.

(** The promoted fields of the embedded broker part, [conf.Host = v]. *)
Definition set_Host (v : string) (c : Config) : Config :=
  let m := Mqtt c in
  set_Mqtt (mkMqttConfig v (Topic m) (StatsTopic m) (ClientKeyFile m) (ClientCertFile m) (MqttRest m)) c.
Definition set_Topic (v : string) (c : Config) : Config :=
  let m := Mqtt c in
  set_Mqtt (mkMqttConfig (Host m) v (StatsTopic m) (ClientKeyFile m) (ClientCertFile m) (MqttRest m)) c.
Definition set_StatsTopic (v : string) (c : Config) : Config :=
  let m := Mqtt c in
  set_Mqtt (mkMqttConfig (Host m) (Topic m) v (ClientKeyFile m) (ClientCertFile m) (MqttRest m)) c.
Definition set_ClientKeyFile (v : string) (c : Config) : Config :=
  let m := Mqtt c in
  set_Mqtt (mkMqttConfig (Host m) (Topic m) (StatsTopic m) v (ClientCertFile m) (MqttRest m)) c.
Definition set_ClientCertFile (v : string) (c : Config) : Config :=
  let m := Mqtt c in
  set_Mqtt (mkMqttConfig (Host m) (Topic m) (StatsTopic m) (ClientKeyFile m) v (MqttRest m)) c.

(** The zero value of the broker part: [DefaultConfig] does not name it. *)
Definition MqttConfig_zero : MqttConfig := mkMqttConfig "" "" "" "" "" MqttRest_zero.

Definition DefaultConfig : Config :=
  {| Placement := "";
     MetricConfig := defaultMetricConfig;
     IntervalSecs := defaultIntervalSeconds;
     StatIntervals := defaultStatsBucketsSeconds;
     LogSensor := defaultLogSensor;
     Mqtt := MqttConfig_zero;
     Sensor := defaultSensorConfig |}.

(** [if err == nil { conf.F = v }] *)
Definition override {A : Type} (r : A * option error) (set : A -> Config -> Config)
    (conf : Config) : Config :=
  match r with
  | (v, None) => set v conf
  | (_, Some _) => conf
  end.

Definition ConfigFromEnv (env : Env) : Config :=
  let conf := DefaultConfig in
  let conf := override (fromEnv env "LOCATION") set_Placement conf in
  let conf := override (fromEnvBool env "LOG_SENSOR") set_LogSensor conf in
  let conf := override (fromEnvInt env "INTERVAL_S") set_IntervalSecs conf in
  let conf := override (fromEnv env "MQTT_HOST") set_Host conf in
  let conf := override (fromEnv env "MQTT_TOPIC") set_Topic conf in
  let conf := override (fromEnv env "MQTT_STATS_TOPIC") set_StatsTopic conf in
  let conf := override (fromEnv env "METRICS_ADDR") set_MetricConfig conf in
  let conf := override (fromEnv env "SSL_CLIENT_KEY_FILE") set_ClientKeyFile conf in
  let conf := override (fromEnv env "SSL_CLIENT_CERT_FILE") set_ClientCertFile conf in
  set_Sensor (SensorConfig_ConfigFromEnv env (Sensor conf)) conf.

End Resolution.

(** ** Derived stats helpers and validation *)

(** The errors of [Validat2e], one constructor per [return] of the
    function, with the values its message is formatted from. *)
Inductive Validat2eError :=
| EmptyLocation
| IntervalBelowOne (interval : Z)
| IntervalBelowAio (aioSecs interval : Z)
| IntervalAbove300 (interval : Z)
| SensorInvalid (msg : string)
| StatsMinBelowOne (min : Z)
| StatsMaxAboveLimit (limit max : Z).

(** The verb [%d]. *)
Definition fmt_d (n : Z) : string := NilZero.string_of_int (Z.to_int n).

(** [err.Error()] *)
Definition Validat2eError_Error (e : Validat2eError) : string :=
  match e with
  | EmptyLocation => "empty location provided"
  | IntervalBelowOne i =>
      "invalid interval: must not be lower than 1 but is " ++ fmt_d i
  | IntervalBelowAio a i =>
      "invalid interval: must not be lower than aioPollingIntervalMs (" ++ fmt_d a
        ++ "s): " ++ fmt_d i
  | IntervalAbove300 i =>
      "invalid interval: mut not be greater than 300 but is " ++ fmt_d i
  | SensorInvalid msg => msg
  | StatsMinBelowOne m =>
      "minimal value in stats bucket must not be < 1: " ++ fmt_d m
  | StatsMaxAboveLimit l m =>
      "maximal value in stats bucket must not be > " ++ fmt_d l ++ ": " ++ fmt_d m
  end.

(** The struct tags of [Config], as the validation engine runs them: per
    field the tags in order, the first failing tag is reported and ends the
    field. *)
Module validator.

(** [required] on a string *)
Definition required (ns : string) (v : string) : list FieldError :=
  if bool_decide (v = "") then [mkFieldError ns "required" ""] else [].

(** [min=lo,max=hi] on an integer *)
Definition min_max (ns : string) (lo hi : Z) (v : Z) : list FieldError :=
  if negb (lo <=? v) then [mkFieldError ns "min" (fmt_d lo)]
  else if negb (v <=? hi) then [mkFieldError ns "max" (fmt_d hi)]
  else [].

(** [dive,...] on a slice: the remaining tags run on every element, the
    namespace of element [i] being [ns[i]]. *)
Fixpoint dive_from {A : Type} (rule : string -> A -> list FieldError)
    (ns : string) (i : Z) (l : list A) : list FieldError :=
  match l with
  | [] => []
  | x :: l' => rule (ns ++ "[" ++ fmt_d i ++ "]") x ++ dive_from rule ns (i + 1) l'
  end.

Definition dive {A : Type} (rule : string -> A -> list FieldError)
    (ns : string) (l : list A) : list FieldError :=
  dive_from rule ns 0 l.

Section TcpAddr.
(** [tcp_addr], which asks the resolver of the [net] package *)
Variable isTCPAddrResolvable : string -> bool.

(** [omitempty,tcp_addr] on a string *)
Definition omitempty_tcp_addr (ns : string) (v : string) : list FieldError :=
  if bool_decide (v = "") then []
  else if isTCPAddrResolvable v then []
  else [mkFieldError ns "tcp_addr" ""].
End TcpAddr.

End validator.

Section Validation.
Context {Rest SensorConfig : Type} `{!MqttSchema Rest} `{!SensorSchema SensorConfig}.

Local Abbreviation Config := (Config Rest SensorConfig).

Definition GetStatIntervalMin (conf : Config) : Z * option error :=
  match StatIntervals conf with
  | [] => (-1, Some (errorString "empty array provided"))
  | first :: _ =>
      (fold_left (fun min val => if val <? min then val else min)
         (StatIntervals conf) first, None)
  end.

Definition GetStatIntervalMax (conf : Config) : Z * option error :=
  match StatIntervals conf with
  | [] => (-1, Some (errorString "empty array provided"))
  | first :: _ =>
      (fold_left (fun max val => if max <? val then val else max)
         (StatIntervals conf) first, None)
  end.

Definition Validat2e (conf : Config) : option Validat2eError :=
  if bool_decide (Placement conf = "") then Some EmptyLocation
  else if IntervalSecs conf <? 1 then Some (IntervalBelowOne (IntervalSecs conf))
  else if IntervalSecs conf <? Z.quot (AioPollingIntervalMs (Sensor conf)) 1000 then
    Some (IntervalBelowAio (Z.quot (AioPollingIntervalMs (Sensor conf)) 1000)
            (IntervalSecs conf))
  else if 300 <? IntervalSecs conf then Some (IntervalAbove300 (IntervalSecs conf))
  else
    match SensorConfig_Validate (Sensor conf) with
    | Some msg => Some (SensorInvalid msg)
    | None =>
        if 0 <? Z.of_nat (length (StatIntervals conf)) then
          let '(min, _) := GetStatIntervalMin conf in
          if min <? 1 then Some (StatsMinBelowOne min)
          else
            let '(max, _) := GetStatIntervalMax conf in
            if maxStatsBucketSeconds <? max
            then Some (StatsMaxAboveLimit maxStatsBucketSeconds max)
            else None
        else None
    end.

Section Declarative.
Variable isTCPAddrResolvable : string -> bool.

(** What [validate.Struct(conf)] collects, field by field.  The two
    custom rules the [once] block registers carry well-formed names,
    so registration succeeds and the engine is the same on every call. *)
Definition Struct (conf : Config) : list FieldError :=
  validator.required "Config.Placement" (Placement conf)
    ++ validator.omitempty_tcp_addr isTCPAddrResolvable "Config.MetricConfig"
         (MetricConfig conf)
    ++ validator.min_max "Config.IntervalSecs" 1 300 (IntervalSecs conf)
    ++ validator.dive (fun ns => validator.min_max ns 10 3600) "Config.StatIntervals"
         (StatIntervals conf)
    ++ MqttConfig_Struct (Mqtt conf)
    ++ SensorConfig_Struct (Sensor conf).

(** [Validate]: [nil] when no field fails, the collected failures
    otherwise. *)
Definition Validate (conf : Config) : option (list FieldError) :=
  match Struct conf with
  | [] => None
  | errs => Some errs
  end.
End Declarative.

Section FileLoader.
(** [os.ReadFile]: the content, or the message of the error. *)
Variable ReadFile : string -> list Byte.byte * option string.
(** [json.Unmarshal(data, &ret)]: the target after the call, and the error. *)
Variable Unmarshal : list Byte.byte -> Config -> Config * option json.Error.

Definition ReadJsonConfig (filePath : string) : option Config * option error :=
  let '(fileContent, err) := ReadFile filePath in
  match err with
  | Some e => (None, Some (errorString ("could not read config from file: " ++ e)))
  | None =>
      let ret := DefaultConfig in
      let '(ret, err) := Unmarshal fileContent ret in
      (Some ret, jsonError <$> err)
  end.
End FileLoader.

End Validation.

(** ** A concrete pair of sub-configurations

    Used to run the functions on closed inputs: a broker part without
    further fields, whose host and topic are required, and a sensor part
    that holds the polling interval, reads it from
    [GOBOT_LUX_AIO_POLLING_INTERVAL_MS] and refuses a negative one. *)
Module Sample.

Record SensorConfig := mkSensorConfig { pollingIntervalMs : Z }.

Definition ConfigFromEnv (env : Env) (conf : SensorConfig) : SensorConfig :=
  match fromEnvInt env "AIO_POLLING_INTERVAL_MS" with
  | (v, None) => mkSensorConfig v
  | (_, Some _) => conf
  end.

Definition Validate (conf : SensorConfig) : option string :=
  if pollingIntervalMs conf <? 0 then Some "negative aio polling interval" else None.

#[global] Instance sensor : SensorSchema SensorConfig := {|
  AioPollingIntervalMs := pollingIntervalMs;
  defaultSensorConfig := mkSensorConfig 75;
  SensorConfig_Validate := Validate;
  SensorConfig_ConfigFromEnv := ConfigFromEnv;
  SensorConfig_Struct := fun conf =>
    validator.min_max "Config.SensorConfig.AioPollingIntervalMs" 0 2000
      (pollingIntervalMs conf);
|}.

#[global] Instance mqtt : MqttSchema unit := {|
  MqttRest_zero := tt;
  MqttConfig_Struct := fun m =>
    (validator.required "Config.MqttConfig.Host" (Host m)
       ++ validator.required "Config.MqttConfig.Topic" (Topic m))%list;
|}.

Definition Config := Config unit SensorConfig.

(** A resolver of [tcp_addr] that accepts every address with a colon. *)
Definition hasColon (s : string) : bool := bool_decide (":"%char ∈ list_ascii_of_string s).

(** A configuration that passes every rule of both validation paths. *)
Definition kitchen : Config :=
  {| Placement := "kitchen";
     MetricConfig := ":9194";
     IntervalSecs := 30;
     StatIntervals := defaultStatsBucketsSeconds;
     LogSensor := false;
     Mqtt := mkMqttConfig "mqtt.example.com:1883" "home/kitchen/lux" "" "" "" tt;
     Sensor := mkSensorConfig 75 |}.

(** [kitchen] with an interval of 301 s and a sensor period of 400 s. *)
Definition slow_sensor : Config :=
  {| Placement := "kitchen";
     MetricConfig := ":9194";
     IntervalSecs := 301;
     StatIntervals := defaultStatsBucketsSeconds;
     LogSensor := false;
     Mqtt := mkMqttConfig "mqtt.example.com:1883" "home/kitchen/lux" "" "" "" tt;
     Sensor := mkSensorConfig 400000 |}.

(** [kitchen] with the given interval and a sensor without a minimum
    sampling period. *)
Definition every (secs : Z) : Config :=
  {| Placement := "kitchen";
     MetricConfig := ":9194";
     IntervalSecs := secs;
     StatIntervals := defaultStatsBucketsSeconds;
     LogSensor := false;
     Mqtt := mkMqttConfig "mqtt.example.com:1883" "home/kitchen/lux" "" "" "" tt;
     Sensor := mkSensorConfig 0 |}.

(** A file system with one readable file, and a decoder restricted to
    the documents of the closed runs: the empty object leaves the target
    as it is; a document that names a placement and then gives the
    interval as a JSON string sets the placement and reports the field
    that does not fit; any other input is malformed and leaves the
    target as it is. *)
Definition configPath : string := "/etc/gobot/lux.json".

Definition dq : string := String (ascii_of_nat 34) EmptyString.

Definition emptyObject : string := "{}".

Definition mistyped : string :=
  "{" ++ dq ++ "placement" ++ dq ++ ":" ++ dq ++ "attic" ++ dq ++ ","
      ++ dq ++ "interval_s" ++ dq ++ ":" ++ dq ++ "soon" ++ dq ++ "}".

Definition ReadFile (content : string) (path : string)
    : list Byte.byte * option string :=
  if bool_decide (path = configPath) then (list_byte_of_string content, None)
  else ([], Some ("open " ++ path ++ ": no such file or directory")).

Definition Unmarshal (data : list Byte.byte) (conf : Config)
    : Config * option json.Error :=
  let doc := string_of_list_byte data in
  if bool_decide (doc = emptyObject) then (conf, None)
  else if bool_decide (doc = mistyped) then
    (set_Placement "attic" conf,
     Some (json.UnmarshalTypeError "string" "interval_s" 40))
  else (conf, Some (json.SyntaxError "unexpected end of JSON input" (strconv.strlen doc))).

(** Environments of the closed runs. *)
Definition env45 : Env :=
  {[ "GOBOT_LUX_INTERVAL_S" := "45"; "HOME" := "/home/gobot" ]}.

Definition envNotANumber : Env :=
  {[ "GOBOT_LUX_INTERVAL_S" := "notanumber"; "HOME" := "/home/gobot" ]}.

Definition envMixed : Env :=
  {[ "GOBOT_LUX_LOG_SENSOR" := "maybe"; "GOBOT_LUX_INTERVAL_S" := "45";
     "GOBOT_LUX_LOCATION" := "attic"; "GOBOT_LUX_AIO_POLLING_INTERVAL_MS" := "250" ]}.

End Sample.

(** ** Printing the configuration *)

(** The verbs [%t] and [%v], the latter on a slice of integers. *)
Definition fmt_t (b : bool) : string := if b then "true" else "false".

Fixpoint fmt_v_elems (l : list Z) : string :=
  match l with
  | [] => ""
  | [x] => fmt_d x
  | x :: l' => fmt_d x ++ " " ++ fmt_v_elems l'
  end.

Definition fmt_v (l : list Z) : string := "[" ++ fmt_v_elems l ++ "]".

Section Printing.
Context {Rest SensorConfig : Type}.
(** [SensorConfig.Print]: the records it hands to the logger, in order. *)
Variable SensorConfig_Print : SensorConfig -> list string.

(** [Print]: the records handed to the logger, in order, each without the
    prefix the logger puts before it. *)
Definition Print (conf : Config Rest SensorConfig) : list string :=
  (["-----------------";
    "Configuration:";
    "Placement=" +:+ Placement conf;
    "LogSensor=" +:+ fmt_t (LogSensor conf);
    "MetricConfig=" +:+ MetricConfig conf;
    "IntervalSecs=" +:+ fmt_d (IntervalSecs conf);
    "Host=" +:+ Host (Mqtt conf);
    "Topic=" +:+ Topic (Mqtt conf)]
   ++ (if 0 <? strconv.strlen (StatsTopic (Mqtt conf))
       then ["StatsTopic=" +:+ Topic (Mqtt conf)] else [])
   ++ (if 0 <? Z.of_nat (length (StatIntervals conf))
       then ["StatIntervals=" +:+ fmt_v (StatIntervals conf)] else [])
   ++ SensorConfig_Print (Sensor conf)
   ++ ["-----------------"])%list.
End Printing.

(** ** Notions the properties are stated with *)

(** [m] is the least element of [l]; [M] is the greatest. *)
Definition is_minimum (m : Z) (l : list Z) : Prop := m ∈ l ∧ ∀ x, x ∈ l → m <= x.
Definition is_maximum (M : Z) (l : list Z) : Prop := M ∈ l ∧ ∀ x, x ∈ l → x <= M.

(** The variables [ConfigFromEnv] itself looks up. *)
Definition resolverVariables : list string :=
  computeEnvName <$>
    ["LOCATION"; "LOG_SENSOR"; "INTERVAL_S"; "MQTT_HOST"; "MQTT_TOPIC";
     "MQTT_STATS_TOPIC"; "METRICS_ADDR"; "SSL_CLIENT_KEY_FILE"; "SSL_CLIENT_CERT_FILE"].

(** Among the resolver's variables, none but [GOBOT_LUX_INTERVAL_S] is set. *)
Definition only_interval_set (env : Env) : Prop :=
  ∀ n, n ∈ resolverVariables → n ≠ "GOBOT_LUX_INTERVAL_S" → env !! n = None.

(** The value a field ends with: the looked-up one when the lookup gave
    no error, the previous one otherwise. *)
Definition resolved {A : Type} (r : A * option error) (previous : A) : A :=
  match r with
  | (v, None) => v
  | (_, Some _) => previous
  end.

(** What an error of [Validat2e] says about the configuration: the check
    it names failed, on the value it carries, and the checks before it
    passed. *)
Definition explains {Rest SensorConfig : Type} `{!SensorSchema SensorConfig}
    (conf : Config Rest SensorConfig) (e : Validat2eError) : Prop :=
  match e with
  | EmptyLocation => Placement conf = ""
  | IntervalBelowOne i =>
      Placement conf ≠ "" ∧ i = IntervalSecs conf ∧ i < 1
  | IntervalBelowAio a i =>
      Placement conf ≠ "" ∧ a = Z.quot (AioPollingIntervalMs (Sensor conf)) 1000
      ∧ i = IntervalSecs conf ∧ 1 <= i < a
  | IntervalAbove300 i =>
      Placement conf ≠ "" ∧ i = IntervalSecs conf
      ∧ Z.quot (AioPollingIntervalMs (Sensor conf)) 1000 <= i ∧ 300 < i
  | SensorInvalid msg =>
      Placement conf ≠ "" ∧ 1 <= IntervalSecs conf <= 300
      ∧ Z.quot (AioPollingIntervalMs (Sensor conf)) 1000 <= IntervalSecs conf
      ∧ SensorConfig_Validate (Sensor conf) = Some msg
  | StatsMinBelowOne m =>
      Placement conf ≠ "" ∧ 1 <= IntervalSecs conf <= 300
      ∧ Z.quot (AioPollingIntervalMs (Sensor conf)) 1000 <= IntervalSecs conf
      ∧ SensorConfig_Validate (Sensor conf) = None
      ∧ is_minimum m (StatIntervals conf) ∧ m < 1
  | StatsMaxAboveLimit limit M =>
      Placement conf ≠ "" ∧ 1 <= IntervalSecs conf <= 300
      ∧ Z.quot (AioPollingIntervalMs (Sensor conf)) 1000 <= IntervalSecs conf
      ∧ SensorConfig_Validate (Sensor conf) = None
      ∧ (∀ x, x ∈ StatIntervals conf → 1 <= x)
      ∧ limit = 7200 ∧ is_maximum M (StatIntervals conf) ∧ 7200 < M
  end.

(** The number a string of decimal digits denotes, read from the left
    with [acc] already read. *)
Fixpoint digits_value (d : Decimal.uint) (acc : Z) : Z :=
  match d with
  | Decimal.Nil => acc
  | Decimal.D0 d => digits_value d (acc * 10 + 0)
  | Decimal.D1 d => digits_value d (acc * 10 + 1)
  | Decimal.D2 d => digits_value d (acc * 10 + 2)
  | Decimal.D3 d => digits_value d (acc * 10 + 3)
  | Decimal.D4 d => digits_value d (acc * 10 + 4)
  | Decimal.D5 d => digits_value d (acc * 10 + 5)
  | Decimal.D6 d => digits_value d (acc * 10 + 6)
  | Decimal.D7 d => digits_value d (acc * 10 + 7)
  | Decimal.D8 d => digits_value d (acc * 10 + 8)
  | Decimal.D9 d => digits_value d (acc * 10 + 9)
  end.

(** Least and greatest element of a closed list. *)
Ltac closed_extremum :=
  split; [repeat constructor | apply Forall_forall; repeat constructor; lia].

(** * Properties *)

(** ** Closed runs of the parsing helpers *)

Example computeEnvName_interval : computeEnvName "INTERVAL_S" = "GOBOT_LUX_INTERVAL_S".
Proof. reflexivity. Qed.

Example Atoi_45 : strconv.Atoi "45" = (45, None).
Proof. vm_compute. reflexivity. Qed.

Example Atoi_notanumber :
  strconv.Atoi "notanumber" = (0, Some (strconv.syntaxError "Atoi" "notanumber")).
Proof. vm_compute. reflexivity. Qed.

Example Atoi_neg : strconv.Atoi "-0012" = (-12, None).
Proof. vm_compute. reflexivity. Qed.

Example Atoi_big :
  strconv.Atoi "9223372036854775808"
  = (9223372036854775807, Some (strconv.rangeError "Atoi" "9223372036854775808")).
Proof. vm_compute. reflexivity. Qed.

Example Atoi_min : strconv.Atoi "-9223372036854775808" = (-9223372036854775808, None).
Proof. vm_compute. reflexivity. Qed.

Example fromEnvInt_45 :
  fromEnvInt {[ "GOBOT_LUX_INTERVAL_S" := "45" ]} "INTERVAL_S" = (45, None).
Proof. vm_compute. reflexivity. Qed.


Example Validat2e_kitchen : Validat2e Sample.kitchen = None.
Proof. vm_compute. reflexivity. Qed.

Example Validate_kitchen : Validate Sample.hasColon Sample.kitchen = None.
Proof. vm_compute. reflexivity. Qed.

Example Validat2eError_Error_below_aio :
  Validat2eError_Error (IntervalBelowAio 400 301)
  = "invalid interval: must not be lower than aioPollingIntervalMs (400s): 301".
Proof. vm_compute. reflexivity. Qed.

Example Validat2eError_Error_stats_min :
  Validat2eError_Error (StatsMinBelowOne (-5))
  = "minimal value in stats bucket must not be < 1: -5".
Proof. vm_compute. reflexivity. Qed.

(** ** The derived stats helpers *)

Lemma is_minimum_unique m m' l : is_minimum m l → is_minimum m' l → m = m'.
Proof. intros [Hin Hle] [Hin' Hle']. apply Hle in Hin'. apply Hle' in Hin. lia. Qed.

Lemma is_maximum_unique M M' l : is_maximum M l → is_maximum M' l → M = M'.
Proof. intros [Hin Hle] [Hin' Hle']. apply Hle in Hin'. apply Hle' in Hin. lia. Qed.

(** The scan of [GetStatIntervalMin] started at [a]: the result is below
    [a] and below every element scanned, and it is one of them. *)
Lemma scan_min (l : list Z) : ∀ a,
  let r := fold_left (fun min val => if val <? min then val else min) l a in
  r <= a ∧ (∀ x, x ∈ l → r <= x) ∧ (r = a ∨ r ∈ l).
Proof.
  induction l as [|v l IH]; intros a; simpl.
  - split; [lia|]. split; [|by left]. intros x Hx. by apply elem_of_nil in Hx.
  - destruct (IH (if v <? a then v else a)) as (Hle & Hall & Hmem).
    destruct (Z.ltb_spec v a) as [Hlt|Hge].
    + split; [lia|]. split.
      * intros x [->|Hx]%elem_of_cons; [lia|by apply Hall].
      * right. destruct Hmem as [->|Hmem]; [by left|by right].
    + split; [lia|]. split.
      * intros x [->|Hx]%elem_of_cons; [lia|by apply Hall].
      * destruct Hmem as [->|Hmem]; [by left|right; by right].
Qed.

Lemma scan_max (l : list Z) : ∀ a,
  let r := fold_left (fun max val => if max <? val then val else max) l a in
  a <= r ∧ (∀ x, x ∈ l → x <= r) ∧ (r = a ∨ r ∈ l).
Proof.
  induction l as [|v l IH]; intros a; simpl.
  - split; [lia|]. split; [|by left]. intros x Hx. by apply elem_of_nil in Hx.
  - destruct (IH (if a <? v then v else a)) as (Hle & Hall & Hmem).
    destruct (Z.ltb_spec a v) as [Hlt|Hge].
    + split; [lia|]. split.
      * intros x [->|Hx]%elem_of_cons; [lia|by apply Hall].
      * right. destruct Hmem as [->|Hmem]; [by left|by right].
    + split; [lia|]. split.
      * intros x [->|Hx]%elem_of_cons; [lia|by apply Hall].
      * destruct Hmem as [->|Hmem]; [by left|right; by right].
Qed.

Section StatsHelpers.
Context {Rest SensorConfig : Type} `{!MqttSchema Rest} `{!SensorSchema SensorConfig}.
Implicit Types conf : Config Rest SensorConfig.

Lemma GetStatIntervalMin_nonempty conf :
  StatIntervals conf ≠ [] →
  ∃ m, GetStatIntervalMin conf = (m, None) ∧ is_minimum m (StatIntervals conf).
Proof.
  unfold GetStatIntervalMin. destruct (StatIntervals conf) as [|a l]; [done|intros _].
  eexists; split; [reflexivity|].
  destruct (scan_min (a :: l) a) as (_ & Hall & Hmem).
  split; [|exact Hall]. destruct Hmem as [->|Hmem]; [by left|exact Hmem].
Qed.

Lemma GetStatIntervalMax_nonempty conf :
  StatIntervals conf ≠ [] →
  ∃ M, GetStatIntervalMax conf = (M, None) ∧ is_maximum M (StatIntervals conf).
Proof.
  unfold GetStatIntervalMax. destruct (StatIntervals conf) as [|a l]; [done|intros _].
  eexists; split; [reflexivity|].
  destruct (scan_max (a :: l) a) as (_ & Hall & Hmem).
  split; [|exact Hall]. destruct Hmem as [->|Hmem]; [by left|exact Hmem].
Qed.

Lemma GetStatIntervalMin_is conf m :
  is_minimum m (StatIntervals conf) → GetStatIntervalMin conf = (m, None).
Proof.
  intros Hm. destruct (GetStatIntervalMin_nonempty conf) as (m' & -> & Hm').
  - destruct Hm as [Hin _]. intros E. rewrite E in Hin. by apply elem_of_nil in Hin.
  - by rewrite (is_minimum_unique _ _ _ Hm' Hm).
Qed.

Lemma GetStatIntervalMax_is conf M :
  is_maximum M (StatIntervals conf) → GetStatIntervalMax conf = (M, None).
Proof.
  intros HM. destruct (GetStatIntervalMax_nonempty conf) as (M' & -> & HM').
  - destruct HM as [Hin _]. intros E. rewrite E in Hin. by apply elem_of_nil in Hin.
  - by rewrite (is_maximum_unique _ _ _ HM' HM).
Qed.

(** C7. On a non-empty list [GetStatIntervalMin] returns the least
    element and a nil error, and [GetStatIntervalMax] the greatest
    element and a nil error; on the default buckets
    {15,30,60,120,300,600,1800} they return (15, nil) and (1800, nil);
    on the empty list each of the two returns an error. *)
Theorem GetStatInterval_min_max conf :
  (StatIntervals conf ≠ [] →
     ∃ m M, GetStatIntervalMin conf = (m, None) ∧ is_minimum m (StatIntervals conf)
          ∧ GetStatIntervalMax conf = (M, None) ∧ is_maximum M (StatIntervals conf))
  ∧ (StatIntervals conf = [15; 30; 60; 120; 300; 600; 1800] →
       GetStatIntervalMin conf = (15, None) ∧ GetStatIntervalMax conf = (1800, None))
  ∧ (StatIntervals conf = [] →
       (∃ e, snd (GetStatIntervalMin conf) = Some e)
       ∧ (∃ e, snd (GetStatIntervalMax conf) = Some e)).
Proof.
  split; [|split].
  - intros Hne.
    destruct (GetStatIntervalMin_nonempty conf Hne) as (m & Hm & Hmin).
    destruct (GetStatIntervalMax_nonempty conf Hne) as (M & HM & Hmax).
    by exists m, M.
  - intros E. unfold GetStatIntervalMin, GetStatIntervalMax. rewrite E. by vm_compute.
  - intros E. unfold GetStatIntervalMin, GetStatIntervalMax. rewrite E.
    split; eexists; reflexivity.
Qed.

End StatsHelpers.

(** The three cases run: the sample configuration carries the default
    buckets; emptied, both helpers fail. *)
Lemma GetStatInterval_min_max_witness :
  (∃ m M, GetStatIntervalMin Sample.kitchen = (m, None)
        ∧ is_minimum m (StatIntervals Sample.kitchen)
        ∧ GetStatIntervalMax Sample.kitchen = (M, None)
        ∧ is_maximum M (StatIntervals Sample.kitchen))
  ∧ (GetStatIntervalMin Sample.kitchen = (15, None)
     ∧ GetStatIntervalMax Sample.kitchen = (1800, None))
  ∧ ((∃ e, snd (GetStatIntervalMin (set_StatIntervals [] Sample.kitchen)) = Some e)
     ∧ (∃ e, snd (GetStatIntervalMax (set_StatIntervals [] Sample.kitchen)) = Some e)).
Proof.
  split; [|split].
  - apply (GetStatInterval_min_max Sample.kitchen). discriminate.
  - apply (GetStatInterval_min_max Sample.kitchen). reflexivity.
  - apply (GetStatInterval_min_max (set_StatIntervals [] Sample.kitchen)). reflexivity.
Defined.

(** ** The sequential checks *)

Section Sequential.
Context {Rest SensorConfig : Type} `{!MqttSchema Rest} `{!SensorSchema SensorConfig}.
Implicit Types conf : Config Rest SensorConfig.

(** The seconds the sensor needs between two samples, [AioPollingIntervalMs/1000]. *)
Local Abbreviation aioSecs conf := (Z.quot (AioPollingIntervalMs (Sensor conf)) 1000).

(** The four checks on the placement and the interval, in source order. *)
Lemma Validat2e_placement conf :
  Placement conf = "" → Validat2e conf = Some EmptyLocation.
Proof. intros E. unfold Validat2e. by rewrite bool_decide_eq_true_2. Qed.

Lemma Validat2e_below_one conf :
  Placement conf ≠ "" → IntervalSecs conf < 1 →
  Validat2e conf = Some (IntervalBelowOne (IntervalSecs conf)).
Proof.
  intros HP Hi. unfold Validat2e. rewrite bool_decide_eq_false_2 by done.
  by rewrite (proj2 (Z.ltb_lt _ _) Hi).
Qed.

Lemma Validat2e_below_aio conf :
  Placement conf ≠ "" → 1 <= IntervalSecs conf → IntervalSecs conf < aioSecs conf →
  Validat2e conf = Some (IntervalBelowAio (aioSecs conf) (IntervalSecs conf)).
Proof.
  intros HP H1 Hi. unfold Validat2e. rewrite bool_decide_eq_false_2 by done.
  rewrite (proj2 (Z.ltb_ge _ _) H1). by rewrite (proj2 (Z.ltb_lt _ _) Hi).
Qed.

Lemma Validat2e_above_300 conf :
  Placement conf ≠ "" → aioSecs conf <= IntervalSecs conf → 300 < IntervalSecs conf →
  Validat2e conf = Some (IntervalAbove300 (IntervalSecs conf)).
Proof.
  intros HP Ha Hi. unfold Validat2e. rewrite bool_decide_eq_false_2 by done.
  rewrite (proj2 (Z.ltb_ge (IntervalSecs conf) 1)) by lia.
  rewrite (proj2 (Z.ltb_ge _ _) Ha). by rewrite (proj2 (Z.ltb_lt _ _) Hi).
Qed.

(** Past the four checks, the sensor part decides, then the buckets. *)
Lemma Validat2e_past_interval conf :
  Placement conf ≠ "" → 1 <= IntervalSecs conf <= 300 →
  aioSecs conf <= IntervalSecs conf →
  Validat2e conf =
    match SensorConfig_Validate (Sensor conf) with
    | Some msg => Some (SensorInvalid msg)
    | None =>
        match StatIntervals conf with
        | [] => None
        | _ =>
            if fst (GetStatIntervalMin conf) <? 1
            then Some (StatsMinBelowOne (fst (GetStatIntervalMin conf)))
            else if maxStatsBucketSeconds <? fst (GetStatIntervalMax conf)
            then Some (StatsMaxAboveLimit maxStatsBucketSeconds
                         (fst (GetStatIntervalMax conf)))
            else None
        end
    end.
Proof.
  intros HP [H1 H300] Ha. unfold Validat2e. rewrite bool_decide_eq_false_2 by done.
  rewrite (proj2 (Z.ltb_ge _ _) H1), (proj2 (Z.ltb_ge _ _) Ha).
  rewrite (proj2 (Z.ltb_ge 300 _)) by lia.
  destruct (SensorConfig_Validate (Sensor conf)); [done|].
  destruct (GetStatIntervalMin conf) as [m em] eqn:Em.
  destruct (GetStatIntervalMax conf) as [M eM] eqn:EM.
  destruct (StatIntervals conf) as [|a l]; [done|]. simpl length.
  rewrite (proj2 (Z.ltb_lt 0 (Z.of_nat (S (length l))))) by lia. done.
Qed.

(** A configuration validates exactly when every check passes. *)
Lemma Validat2e_None conf :
  Validat2e conf = None ↔
    Placement conf ≠ "" ∧ 1 <= IntervalSecs conf <= 300
    ∧ aioSecs conf <= IntervalSecs conf
    ∧ SensorConfig_Validate (Sensor conf) = None
    ∧ ∀ x, x ∈ StatIntervals conf → 1 <= x <= maxStatsBucketSeconds.
Proof.
  split.
  - intros HV.
    destruct (decide (Placement conf = "")) as [E|HP].
    { by rewrite Validat2e_placement in HV. }
    destruct (Z.lt_ge_cases (IntervalSecs conf) 1) as [Hlt|H1].
    { by rewrite Validat2e_below_one in HV. }
    destruct (Z.lt_ge_cases (IntervalSecs conf) (aioSecs conf)) as [Hlt|Ha].
    { by rewrite Validat2e_below_aio in HV. }
    destruct (Z.lt_ge_cases 300 (IntervalSecs conf)) as [Hlt|H300].
    { by rewrite Validat2e_above_300 in HV. }
    rewrite Validat2e_past_interval in HV by (done || lia).
    destruct (SensorConfig_Validate (Sensor conf)); [done|].
    repeat (split; [done || lia|]).
    destruct (StatIntervals conf) as [|a l] eqn:El.
    { intros x Hx. by apply elem_of_nil in Hx. }
    destruct (GetStatIntervalMin_nonempty conf) as (m & Em & _ & Hm); [by rewrite El|].
    destruct (GetStatIntervalMax_nonempty conf) as (M & EM & _ & HM); [by rewrite El|].
    rewrite Em, EM in HV. simpl in HV.
    destruct (Z.ltb_spec m 1); [done|].
    destruct (Z.ltb_spec maxStatsBucketSeconds M); [done|].
    rewrite El in Hm, HM. intros x Hx. specialize (Hm x Hx). specialize (HM x Hx). lia.
  - intros (HP & Hi & Ha & HS & Hl).
    rewrite Validat2e_past_interval by done. rewrite HS.
    destruct (StatIntervals conf) as [|a l] eqn:El; [done|].
    destruct (GetStatIntervalMin_nonempty conf) as (m & Em & Hm & _); [by rewrite El|].
    destruct (GetStatIntervalMax_nonempty conf) as (M & EM & HM & _); [by rewrite El|].
    rewrite Em, EM. simpl. rewrite El in Hm, HM.
    apply Hl in Hm. apply Hl in HM.
    rewrite (proj2 (Z.ltb_ge m 1)) by lia.
    by rewrite (proj2 (Z.ltb_ge maxStatsBucketSeconds M)) by lia.
Qed.

(** C2. With a non-empty placement, [AioPollingIntervalMs = 0], a sensor
    part that validates and buckets within the bounds of the sequential
    path, validation succeeds exactly when [1 <= IntervalSecs <= 300];
    at 0 it fails on the lower bound and at 301 on the upper bound. *)
Theorem Validat2e_interval_bounds conf :
  Placement conf ≠ "" →
  AioPollingIntervalMs (Sensor conf) = 0 →
  SensorConfig_Validate (Sensor conf) = None →
  (∀ x, x ∈ StatIntervals conf → 1 <= x <= 7200) →
  (Validat2e conf = None ↔ 1 <= IntervalSecs conf <= 300)
  ∧ (IntervalSecs conf = 0 → Validat2e conf = Some (IntervalBelowOne 0))
  ∧ (IntervalSecs conf = 301 → Validat2e conf = Some (IntervalAbove300 301)).
Proof.
  intros HP Haio HS Hl.
  assert (Hq : aioSecs conf = 0) by (by rewrite Haio).
  split; [|split].
  - rewrite Validat2e_None. split; [tauto|]. intros Hi.
    repeat (split; [done || lia|]). exact Hl.
  - intros E. rewrite <- E. apply Validat2e_below_one; [done|lia].
  - intros E. rewrite <- E. apply Validat2e_above_300; [done|lia|lia].
Qed.

(** C3. Once the placement and the lower bound have passed, the
    cross-field error is returned exactly when [IntervalSecs] is below
    [AioPollingIntervalMs/1000], the quotient truncated toward zero; it
    is returned in no other situation; and with [AioPollingIntervalMs]
    in [0, 1999] an interval of 1 is not below the quotient, so the
    cross-field error is not returned. *)
Theorem Validat2e_cross_field conf :
  (Placement conf ≠ "" → 1 <= IntervalSecs conf →
     (Validat2e conf = Some (IntervalBelowAio (aioSecs conf) (IntervalSecs conf))
      ↔ IntervalSecs conf < aioSecs conf))
  ∧ (∀ a i, Validat2e conf = Some (IntervalBelowAio a i) →
       a = aioSecs conf ∧ i = IntervalSecs conf ∧ IntervalSecs conf < aioSecs conf)
  ∧ (0 <= AioPollingIntervalMs (Sensor conf) <= 1999 → IntervalSecs conf = 1 →
       aioSecs conf <= IntervalSecs conf
       ∧ ∀ a i, Validat2e conf ≠ Some (IntervalBelowAio a i)).
Proof.
  assert (Hinv : ∀ a i, Validat2e conf = Some (IntervalBelowAio a i) →
       a = aioSecs conf ∧ i = IntervalSecs conf ∧ IntervalSecs conf < aioSecs conf).
  { intros a i HV.
    destruct (decide (Placement conf = "")) as [E|HP].
    { by rewrite Validat2e_placement in HV. }
    destruct (Z.lt_ge_cases (IntervalSecs conf) 1) as [Hlt|H1].
    { by rewrite Validat2e_below_one in HV. }
    destruct (Z.lt_ge_cases (IntervalSecs conf) (aioSecs conf)) as [Hlt|Ha].
    { rewrite Validat2e_below_aio in HV by done. by injection HV as <- <-. }
    destruct (Z.lt_ge_cases 300 (IntervalSecs conf)) as [Hlt|H300].
    { by rewrite Validat2e_above_300 in HV. }
    rewrite Validat2e_past_interval in HV by (done || lia).
    destruct (SensorConfig_Validate (Sensor conf)); [done|].
    destruct (StatIntervals conf); [done|].
    destruct (_ <? 1); [done|]. by destruct (_ <? _). }
  split; [|split].
  - intros HP H1. split.
    + intros HV. by apply Hinv in HV as (_ & _ & Hlt).
    + by apply Validat2e_below_aio.
  - exact Hinv.
  - intros Haio Hi.
    assert (Hq : aioSecs conf < 2).
    { apply Z.quot_lt_upper_bound; lia. }
    split; [lia|]. intros a i HV. apply Hinv in HV as (_ & _ & Hlt). lia.
Qed.

(** C4, as the code has it.  The checks run in the order placement,
    lower bound, cross-field constraint, upper bound: an interval that is
    above 300 and below [AioPollingIntervalMs/1000] is reported as the
    cross-field error; the upper-bound error is reported when the
    interval is above 300 and not below the quotient. *)
Theorem Validat2e_cross_field_before_upper_bound conf :
  Placement conf ≠ "" → 300 < IntervalSecs conf →
  (IntervalSecs conf < aioSecs conf →
     Validat2e conf = Some (IntervalBelowAio (aioSecs conf) (IntervalSecs conf)))
  ∧ (aioSecs conf <= IntervalSecs conf →
     Validat2e conf = Some (IntervalAbove300 (IntervalSecs conf))).
Proof.
  intros HP Hi. split; intros Ha.
  - apply Validat2e_below_aio; [done|lia|done].
  - by apply Validat2e_above_300.
Qed.

(** C10. The default configuration fails both validation paths on its
    placement: [DefaultConfig] leaves [Placement] empty, the sequential
    checks return the empty-location error, and the struct-tag path
    reports [required] on [Placement] as its first failure. *)
Theorem DefaultConfig_invalid (isTCPAddrResolvable : string → bool) :
  Placement (DefaultConfig (Rest:=Rest) (SensorConfig:=SensorConfig)) = ""
  ∧ Validat2e (DefaultConfig (Rest:=Rest) (SensorConfig:=SensorConfig))
    = Some EmptyLocation
  ∧ ∃ others,
      Validate isTCPAddrResolvable (DefaultConfig (Rest:=Rest) (SensorConfig:=SensorConfig))
      = Some (mkFieldError "Config.Placement" "required" "" :: others).
Proof.
  split; [done|]. split; [by apply Validat2e_placement|].
  unfold Validate, Struct. simpl. by eexists.
Qed.

End Sequential.

(** An interval of 301 with a sensor period of 400 s: the cross-field
    error comes first. *)
Lemma Validat2e_upper_bound_not_first :
  Placement Sample.slow_sensor ≠ ""
  ∧ 300 < IntervalSecs Sample.slow_sensor
  ∧ IntervalSecs Sample.slow_sensor
    < Z.quot (AioPollingIntervalMs (Sensor Sample.slow_sensor)) 1000
  ∧ Validat2e Sample.slow_sensor = Some (IntervalBelowAio 400 301)
  ∧ Validat2e Sample.slow_sensor
    ≠ Some (IntervalAbove300 (IntervalSecs Sample.slow_sensor)).
Proof. vm_compute. repeat split; (discriminate || reflexivity). Qed.

Lemma Validat2e_cross_field_before_upper_bound_witness :
  Validat2e Sample.slow_sensor = Some (IntervalBelowAio 400 301)
  ∧ Validat2e (set_IntervalSecs 500 Sample.slow_sensor) = Some (IntervalAbove300 500).
Proof.
  split.
  - destruct (Validat2e_cross_field_before_upper_bound Sample.slow_sensor) as [H _];
      [discriminate | reflexivity |].
    apply H. reflexivity.
  - destruct (Validat2e_cross_field_before_upper_bound
                (set_IntervalSecs 500 Sample.slow_sensor)) as [_ H];
      [discriminate | reflexivity |].
    apply H. discriminate.
Defined.

Lemma default_buckets_in_range (x : Z) :
  x ∈ defaultStatsBucketsSeconds → 1 <= x <= 7200.
Proof. revert x. apply Forall_forall. repeat constructor; lia. Qed.

Lemma Validat2e_interval_bounds_witness :
  (Validat2e (Sample.every 30) = None ↔ 1 <= 30 <= 300)
  ∧ Validat2e (Sample.every 0) = Some (IntervalBelowOne 0)
  ∧ Validat2e (Sample.every 301) = Some (IntervalAbove300 301).
Proof.
  split; [|split].
  - destruct (Validat2e_interval_bounds (Sample.every 30)) as (H & _ & _);
      [discriminate | reflexivity | reflexivity | apply default_buckets_in_range |].
    exact H.
  - destruct (Validat2e_interval_bounds (Sample.every 0)) as (_ & H & _);
      [discriminate | reflexivity | reflexivity | apply default_buckets_in_range |].
    apply H. reflexivity.
  - destruct (Validat2e_interval_bounds (Sample.every 301)) as (_ & _ & H);
      [discriminate | reflexivity | reflexivity | apply default_buckets_in_range |].
    apply H. reflexivity.
Defined.

Lemma Validat2e_cross_field_witness :
  (Validat2e Sample.slow_sensor = Some (IntervalBelowAio 400 301) ↔ 301 < 400)
  ∧ (Z.quot 1999 1000 <= 1
     ∧ ∀ a i, Validat2e (set_Sensor (Sample.mkSensorConfig 1999) (Sample.every 1))
              ≠ Some (IntervalBelowAio a i)).
Proof.
  split.
  - destruct (Validat2e_cross_field Sample.slow_sensor) as (H & _ & _).
    apply H; discriminate.
  - destruct (Validat2e_cross_field
                (set_Sensor (Sample.mkSensorConfig 1999) (Sample.every 1))) as (_ & _ & H).
    assert (Hr : 0 <= 1999 <= 1999) by (split; discriminate).
    exact (H Hr eq_refl).
Defined.

(** ** The struct-tag path and the two bounds on the buckets *)

(** [dive] reports every element that leaves the bounds, under the
    namespace of its index and with the tag that failed. *)
Lemma dive_from_reports (ns : string) (lo hi : Z) (l : list Z) :
  ∀ (i0 : Z) (k : nat) (x : Z),
    l !! k = Some x → x < lo ∨ hi < x →
    mkFieldError (ns ++ "[" ++ fmt_d (i0 + Z.of_nat k) ++ "]")
      (if x <? lo then "min" else "max") (fmt_d (if x <? lo then lo else hi))
    ∈ validator.dive_from (fun ns => validator.min_max ns lo hi) ns i0 l.
Proof.
  induction l as [|a l IH]; intros i0 k x Hk Hx; [done|].
  destruct k as [|k]; simpl in Hk; cbn [validator.dive_from]; apply elem_of_app.
  - injection Hk as ->. left. change (Z.of_nat 0) with 0. rewrite Z.add_0_r.
    unfold validator.min_max.
    destruct (Z.ltb_spec x lo) as [Hlt|Hge].
    + rewrite (proj2 (Z.leb_gt lo x)) by done. by left.
    + rewrite (proj2 (Z.leb_le lo x)) by done.
      rewrite (proj2 (Z.leb_gt x hi)) by lia. by left.
  - right. specialize (IH (i0 + 1) k x Hk Hx).
    replace (i0 + 1 + Z.of_nat k) with (i0 + Z.of_nat (S k)) in IH by lia. exact IH.
Qed.

Section Buckets.
Context {Rest SensorConfig : Type} `{!MqttSchema Rest} `{!SensorSchema SensorConfig}.
Implicit Types conf : Config Rest SensorConfig.
Variable isTCPAddrResolvable : string → bool.

Lemma Validate_reports conf (e : FieldError) :
  e ∈ Struct isTCPAddrResolvable conf →
  Validate isTCPAddrResolvable conf = Some (Struct isTCPAddrResolvable conf).
Proof.
  intros He. unfold Validate. destruct (Struct _ conf); [|done].
  by apply elem_of_nil in He.
Qed.

Lemma Struct_reports_bucket conf (k : nat) (x : Z) :
  StatIntervals conf !! k = Some x → x < 10 ∨ 3600 < x →
  mkFieldError ("Config.StatIntervals" ++ "[" ++ fmt_d (Z.of_nat k) ++ "]")
    (if x <? 10 then "min" else "max") (if x <? 10 then "10" else "3600")
  ∈ Struct isTCPAddrResolvable conf.
Proof.
  intros Hk Hx.
  pose proof (dive_from_reports "Config.StatIntervals" 10 3600 _ 0 k x Hk Hx) as Hin.
  unfold Struct, validator.dive.
  do 3 (apply elem_of_app; right). apply elem_of_app; left.
  rewrite Z.add_0_l in Hin. by destruct (x <? 10).
Qed.

(** C5. A configuration whose [StatIntervals] holds an element outside
    [10, 3600] fails [Validate]: the failures name that element, with
    [min] when it is below 10 and [max] when it is above 3600. *)
Theorem Validate_bucket_bounds conf (x : Z) :
  x ∈ StatIntervals conf → x < 10 ∨ 3600 < x →
  ∃ errs (k : nat),
    Validate isTCPAddrResolvable conf = Some errs
    ∧ StatIntervals conf !! k = Some x
    ∧ mkFieldError ("Config.StatIntervals" ++ "[" ++ fmt_d (Z.of_nat k) ++ "]")
        (if x <? 10 then "min" else "max") (if x <? 10 then "10" else "3600")
      ∈ errs.
Proof.
  intros [k Hk]%list_elem_of_lookup Hx.
  pose proof (Struct_reports_bucket conf k x Hk Hx) as Hs.
  exists (Struct isTCPAddrResolvable conf), k.
  split; [by eapply Validate_reports|]. by split.
Qed.

(** C6. With non-empty buckets of least element [m] and greatest
    element [M], [Validat2e] fails when [m < 1] or [M > 7200].  When the
    configuration passes every check before the buckets, the error is the
    one on the minimum if [m < 1], and the one on the 7200 ceiling if
    [1 <= m] and [M > 7200].  A greatest element above 7200 also fails
    [Validate], whose per-element bound is 3600. *)
Theorem Validat2e_bucket_limits conf (m M : Z) :
  is_minimum m (StatIntervals conf) → is_maximum M (StatIntervals conf) →
  (m < 1 ∨ 7200 < M → ∃ e, Validat2e conf = Some e)
  ∧ (Validat2e (set_StatIntervals [] conf) = None → m < 1 →
       Validat2e conf = Some (StatsMinBelowOne m))
  ∧ (Validat2e (set_StatIntervals [] conf) = None → 1 <= m → 7200 < M →
       Validat2e conf = Some (StatsMaxAboveLimit 7200 M))
  ∧ (7200 < M → ∃ errs, Validate isTCPAddrResolvable conf = Some errs).
Proof.
  intros Hm HM.
  assert (Hne : StatIntervals conf ≠ []).
  { destruct Hm as [Hin _]. intros E. rewrite E in Hin. by apply elem_of_nil in Hin. }
  assert (Hpast : Validat2e (set_StatIntervals [] conf) = None →
            Validat2e conf =
              if m <? 1 then Some (StatsMinBelowOne m)
              else if 7200 <? M then Some (StatsMaxAboveLimit 7200 M) else None).
  { intros (HP & Hi & Ha & HS & _)%Validat2e_None. simpl in *.
    rewrite Validat2e_past_interval by done. rewrite HS.
    rewrite (GetStatIntervalMin_is _ _ Hm), (GetStatIntervalMax_is _ _ HM).
    by destruct (StatIntervals conf). }
  split; [|split; [|split]].
  - intros Hout. destruct (Validat2e conf) as [e|] eqn:E; [by exists e|].
    apply Validat2e_None in E as (_ & _ & _ & _ & Hl).
    destruct Hm as [Hm _]. destruct HM as [HM _].
    apply Hl in Hm. apply Hl in HM. unfold maxStatsBucketSeconds in *. lia.
  - intros Hp Hlt. rewrite (Hpast Hp). by rewrite (proj2 (Z.ltb_lt m 1)).
  - intros Hp Hge Hgt. rewrite (Hpast Hp).
    rewrite (proj2 (Z.ltb_ge m 1)) by done. by rewrite (proj2 (Z.ltb_lt 7200 M)).
  - intros Hgt. destruct HM as [[k Hk]%list_elem_of_lookup _].
    eexists. eapply Validate_reports, (Struct_reports_bucket conf k M Hk). lia.
Qed.

(** The struct-tag path succeeds exactly when every tag passes. *)
Lemma min_max_passes (ns : string) (lo hi v : Z) :
  validator.min_max ns lo hi v = [] ↔ lo <= v <= hi.
Proof.
  unfold validator.min_max.
  destruct (Z.leb_spec lo v), (Z.leb_spec v hi); simpl; split; (done || lia).
Qed.

Lemma dive_from_passes (ns : string) (lo hi : Z) (l : list Z) :
  ∀ i0, validator.dive_from (fun ns => validator.min_max ns lo hi) ns i0 l = []
        ↔ ∀ x, x ∈ l → lo <= x <= hi.
Proof.
  induction l as [|a l IH]; intros i0; cbn [validator.dive_from].
  - split; [|done]. intros _ x Hx. by apply elem_of_nil in Hx.
  - rewrite app_nil, min_max_passes, IH. split.
    + intros [Ha Hl] x [->|Hx]%elem_of_cons; [done|by apply Hl].
    + intros Hall. split; [apply Hall; by left|]. intros x Hx. apply Hall. by right.
Qed.

Lemma Validate_None conf :
  Validate isTCPAddrResolvable conf = None ↔
    Placement conf ≠ ""
    ∧ (MetricConfig conf = "" ∨ isTCPAddrResolvable (MetricConfig conf) = true)
    ∧ 1 <= IntervalSecs conf <= 300
    ∧ (∀ x, x ∈ StatIntervals conf → 10 <= x <= 3600)
    ∧ MqttConfig_Struct (Mqtt conf) = []
    ∧ SensorConfig_Struct (Sensor conf) = [].
Proof.
  assert (HV : Validate isTCPAddrResolvable conf = None
               ↔ Struct isTCPAddrResolvable conf = []).
  { unfold Validate. by destruct (Struct _ conf). }
  rewrite HV. unfold Struct, validator.dive.
  rewrite !app_nil, min_max_passes, dive_from_passes.
  assert (HP : validator.required "Config.Placement" (Placement conf) = []
               ↔ Placement conf ≠ "").
  { unfold validator.required. case_bool_decide; split; done. }
  assert (HM : validator.omitempty_tcp_addr isTCPAddrResolvable "Config.MetricConfig"
                 (MetricConfig conf) = []
               ↔ MetricConfig conf = "" ∨ isTCPAddrResolvable (MetricConfig conf) = true).
  { unfold validator.omitempty_tcp_addr. case_bool_decide as Hm.
    - split; [by left|done].
    - destruct (isTCPAddrResolvable (MetricConfig conf)); split; try done.
      + by right.
      + by intros [?|?]. }
  by rewrite HP, HM.
Qed.

End Buckets.

(** A bucket of 5 s among valid ones. *)
Lemma Validate_bucket_bounds_witness :
  ∃ errs (k : nat),
    Validate Sample.hasColon (set_StatIntervals [15; 5; 60] Sample.kitchen) = Some errs
    ∧ StatIntervals (set_StatIntervals [15; 5; 60] Sample.kitchen) !! k = Some 5
    ∧ mkFieldError ("Config.StatIntervals" ++ "[" ++ fmt_d (Z.of_nat k) ++ "]") "min" "10"
      ∈ errs.
Proof.
  apply (Validate_bucket_bounds Sample.hasColon
           (set_StatIntervals [15; 5; 60] Sample.kitchen) 5);
    [repeat constructor | left; lia].
Defined.

Example Validate_bucket_of_5 :
  Validate Sample.hasColon (set_StatIntervals [15; 5; 60] Sample.kitchen)
  = Some [mkFieldError "Config.StatIntervals[1]" "min" "10"].
Proof. vm_compute. reflexivity. Qed.

Example Validat2e_bucket_of_5 :
  Validat2e (set_StatIntervals [15; 5; 60] Sample.kitchen) = None.
Proof. vm_compute. reflexivity. Qed.

(** Buckets reaching 7300 s, and buckets reaching down to 0 s. *)
Lemma Validat2e_bucket_limits_witness :
  (∃ e, Validat2e (set_StatIntervals [15; 7300] Sample.kitchen) = Some e)
  ∧ Validat2e (set_StatIntervals [60; 0] Sample.kitchen) = Some (StatsMinBelowOne 0)
  ∧ Validat2e (set_StatIntervals [15; 7300] Sample.kitchen)
    = Some (StatsMaxAboveLimit 7200 7300)
  ∧ ∃ errs, Validate Sample.hasColon (set_StatIntervals [15; 7300] Sample.kitchen)
            = Some errs.
Proof.
  assert (Hm : is_minimum 15 [15; 7300]) by closed_extremum.
  assert (HM : is_maximum 7300 [15; 7300]) by closed_extremum.
  assert (Hm0 : is_minimum 0 [60; 0]) by closed_extremum.
  assert (HM0 : is_maximum 60 [60; 0]) by closed_extremum.
  destruct (Validat2e_bucket_limits Sample.hasColon
              (set_StatIntervals [15; 7300] Sample.kitchen) 15 7300 Hm HM)
    as (H1 & _ & H3 & H4).
  destruct (Validat2e_bucket_limits Sample.hasColon
              (set_StatIntervals [60; 0] Sample.kitchen) 0 60 Hm0 HM0)
    as (_ & H2 & _).
  split; [apply H1; right; lia|].
  split; [apply H2; [reflexivity | lia]|].
  split; [apply H3; [reflexivity | lia | lia]|].
  apply H4. lia.
Defined.

(** ** The file loader *)

Section FileLoading.
Context {Rest SensorConfig : Type} `{!MqttSchema Rest} `{!SensorSchema SensorConfig}.
Variable ReadFile : string → list Byte.byte * option string.
Variable Unmarshal :
  list Byte.byte → Config Rest SensorConfig → Config Rest SensorConfig * option json.Error.

(** C8. When the file cannot be read, [ReadJsonConfig] returns a nil
    configuration and the read error, wrapped.  When it is read and the
    decoder fails, on malformed input or on a value that does not fit
    its field, [ReadJsonConfig] returns a non-nil configuration, namely
    what the decoder left of the default configuration it was given,
    together with the decoder's error. *)
Theorem ReadJsonConfig_failures (filePath : string) :
  (∀ content e,
     ReadFile filePath = (content, Some e) →
     ReadJsonConfig ReadFile Unmarshal filePath
     = (None, Some (errorString ("could not read config from file: " ++ e))))
  ∧ (∀ content ret e,
       ReadFile filePath = (content, None) →
       Unmarshal content DefaultConfig = (ret, Some e) →
       ReadJsonConfig ReadFile Unmarshal filePath = (Some ret, Some (jsonError e))).
Proof.
  unfold ReadJsonConfig. split.
  - intros content e ->. reflexivity.
  - intros content ret e -> ->. reflexivity.
Qed.

End FileLoading.

(** A missing file; a file with a mistyped interval, whose placement is
    decoded all the same; a truncated file. *)
Lemma ReadJsonConfig_failures_witness :
  ReadJsonConfig (Sample.ReadFile Sample.emptyObject) Sample.Unmarshal "/nowhere.json"
  = (None, Some (errorString
       "could not read config from file: open /nowhere.json: no such file or directory"))
  ∧ ReadJsonConfig (Sample.ReadFile Sample.mistyped) Sample.Unmarshal Sample.configPath
    = (Some (set_Placement "attic" DefaultConfig),
       Some (jsonError (json.UnmarshalTypeError "string" "interval_s" 40)))
  ∧ ReadJsonConfig (Sample.ReadFile "{") Sample.Unmarshal Sample.configPath
    = (Some DefaultConfig,
       Some (jsonError (json.SyntaxError "unexpected end of JSON input" 1))).
Proof.
  split; [|split].
  - destruct (ReadJsonConfig_failures (Sample.ReadFile Sample.emptyObject)
                Sample.Unmarshal "/nowhere.json") as [H _].
    exact (H [] _ eq_refl).
  - destruct (ReadJsonConfig_failures (Sample.ReadFile Sample.mistyped)
                Sample.Unmarshal Sample.configPath) as [_ H].
    exact (H _ _ _ eq_refl eq_refl).
  - destruct (ReadJsonConfig_failures (Sample.ReadFile "{")
                Sample.Unmarshal Sample.configPath) as [_ H].
    exact (H _ _ _ eq_refl eq_refl).
Defined.

Example ReadJsonConfig_empty_object :
  ReadJsonConfig (Sample.ReadFile Sample.emptyObject) Sample.Unmarshal Sample.configPath
  = (Some DefaultConfig, None).
Proof. vm_compute. reflexivity. Qed.

(** ** The environment resolver *)

(** A lookup succeeds exactly on a variable that is set to a non-empty
    value. *)
Lemma fromEnv_unset (env : Env) (name : string) :
  env !! computeEnvName name = None →
  fromEnv env name = ("", Some (errorString "not defined")).
Proof. intros E. unfold fromEnv, os.Getenv. by rewrite E. Qed.

Lemma fromEnv_empty (env : Env) (name : string) :
  env !! computeEnvName name = Some "" →
  fromEnv env name = ("", Some (errorString "not defined")).
Proof. intros E. unfold fromEnv, os.Getenv. by rewrite E. Qed.

Lemma fromEnv_set (env : Env) (name v : string) :
  env !! computeEnvName name = Some v → v ≠ "" → fromEnv env name = (v, None).
Proof.
  intros E Hv. unfold fromEnv, os.Getenv. rewrite E. simpl.
  by rewrite bool_decide_eq_false_2.
Qed.

Lemma fromEnv_error (env : Env) (name v : string) (e : error) :
  fromEnv env name = (v, Some e) → v = "" ∧ e = errorString "not defined".
Proof. unfold fromEnv. case_bool_decide; intros [= <- <-]; done. Qed.

Lemma fromEnv_ok (env : Env) (name v : string) :
  fromEnv env name = (v, None) → v ≠ "" ∧ env !! computeEnvName name = Some v.
Proof.
  unfold fromEnv, os.Getenv. case_bool_decide as Hv; intros [= <-].
  split; [done|]. destruct (env !! computeEnvName name); simpl in *; congruence.
Qed.

(** [os.Getenv] does not tell a variable set to the empty string from an
    unset one. *)
Lemma Getenv_empty_delete (env : Env) (k name : string) :
  os.Getenv (<[k := ""]> env) name = os.Getenv (delete k env) name.
Proof.
  unfold os.Getenv. destruct (decide (k = name)) as [->|Hne].
  - by rewrite lookup_insert_eq, lookup_delete_eq.
  - by rewrite lookup_insert_ne, lookup_delete_ne.
Qed.

Lemma resolved_string_empty (r : string * option error) (previous : string) env name :
  r = fromEnv env name → resolved r previous = "" →
  previous = "" ∧ snd r = Some (errorString "not defined").
Proof.
  intros -> Hr. destruct (fromEnv env name) as [v [e|]] eqn:E; simpl in *.
  - apply fromEnv_error in E as [_ ->]. done.
  - apply fromEnv_ok in E as [Hv _]. done.
Qed.

Section EnvResolution.
Context {Rest SensorConfig : Type} `{!MqttSchema Rest} `{!SensorSchema SensorConfig}.
Local Abbreviation Config := (Config Rest SensorConfig).
Local Abbreviation DefaultConfig := (DefaultConfig (Rest:=Rest) (SensorConfig:=SensorConfig)).

(** Field by field: each one is decided by its own variable. *)
Lemma ConfigFromEnv_fields (env : Env) :
  ConfigFromEnv env =
    {| Placement := resolved (fromEnv env "LOCATION") (Placement DefaultConfig);
       MetricConfig := resolved (fromEnv env "METRICS_ADDR") (MetricConfig DefaultConfig);
       IntervalSecs := resolved (fromEnvInt env "INTERVAL_S") (IntervalSecs DefaultConfig);
       StatIntervals := StatIntervals DefaultConfig;
       LogSensor := resolved (fromEnvBool env "LOG_SENSOR") (LogSensor DefaultConfig);
       Mqtt :=
         {| Host := resolved (fromEnv env "MQTT_HOST") (Host (Mqtt DefaultConfig));
            Topic := resolved (fromEnv env "MQTT_TOPIC") (Topic (Mqtt DefaultConfig));
            StatsTopic :=
              resolved (fromEnv env "MQTT_STATS_TOPIC") (StatsTopic (Mqtt DefaultConfig));
            ClientKeyFile :=
              resolved (fromEnv env "SSL_CLIENT_KEY_FILE")
                (ClientKeyFile (Mqtt DefaultConfig));
            ClientCertFile :=
              resolved (fromEnv env "SSL_CLIENT_CERT_FILE")
                (ClientCertFile (Mqtt DefaultConfig));
            MqttRest := MqttRest (Mqtt DefaultConfig) |};
       Sensor := SensorConfig_ConfigFromEnv env (Sensor DefaultConfig) |}.
Proof.
  unfold ConfigFromEnv.
  destruct (fromEnv env "LOCATION") as [? []];
    destruct (fromEnvBool env "LOG_SENSOR") as [? []];
    destruct (fromEnvInt env "INTERVAL_S") as [? []];
    destruct (fromEnv env "MQTT_HOST") as [? []];
    destruct (fromEnv env "MQTT_TOPIC") as [? []];
    destruct (fromEnv env "MQTT_STATS_TOPIC") as [? []];
    destruct (fromEnv env "METRICS_ADDR") as [? []];
    destruct (fromEnv env "SSL_CLIENT_KEY_FILE") as [? []];
    destruct (fromEnv env "SSL_CLIENT_CERT_FILE") as [? []];
    reflexivity.
Qed.

Lemma only_interval_set_unset (env : Env) (name : string) :
  only_interval_set env →
  computeEnvName name ∈ resolverVariables →
  computeEnvName name ≠ "GOBOT_LUX_INTERVAL_S" →
  fromEnv env name = ("", Some (errorString "not defined"))
  ∧ fromEnvBool env name = (false, Some (errorString "not defined")).
Proof.
  intros Ho Hin Hne. pose proof (fromEnv_unset env name (Ho _ Hin Hne)) as E.
  split; [done|]. unfold fromEnvBool. by rewrite E.
Qed.

Lemma ConfigFromEnv_only_interval (env : Env) (r : Z * option error) :
  only_interval_set env → fromEnvInt env "INTERVAL_S" = r →
  SensorConfig_ConfigFromEnv env defaultSensorConfig = defaultSensorConfig →
  ConfigFromEnv env = set_IntervalSecs (resolved r defaultIntervalSeconds) DefaultConfig.
Proof.
  intros Ho Hr Hs. rewrite ConfigFromEnv_fields, Hr. simpl. rewrite Hs.
  assert (Hu : ∀ name, computeEnvName name ∈ resolverVariables →
                 computeEnvName name ≠ "GOBOT_LUX_INTERVAL_S" →
                 fromEnv env name = ("", Some (errorString "not defined"))
                 ∧ fromEnvBool env name = (false, Some (errorString "not defined"))).
  { intros name. by apply only_interval_set_unset. }
  destruct (Hu "LOCATION") as [-> _]; [by vm_compute; repeat constructor|done|].
  destruct (Hu "LOG_SENSOR") as [_ ->]; [by vm_compute; repeat constructor|done|].
  destruct (Hu "MQTT_HOST") as [-> _]; [by vm_compute; repeat constructor|done|].
  destruct (Hu "MQTT_TOPIC") as [-> _]; [by vm_compute; repeat constructor|done|].
  destruct (Hu "MQTT_STATS_TOPIC") as [-> _]; [by vm_compute; repeat constructor|done|].
  destruct (Hu "METRICS_ADDR") as [-> _]; [by vm_compute; repeat constructor|done|].
  destruct (Hu "SSL_CLIENT_KEY_FILE") as [-> _]; [by vm_compute; repeat constructor|done|].
  destruct (Hu "SSL_CLIENT_CERT_FILE") as [-> _]; [by vm_compute; repeat constructor|done|].
  reflexivity.
Qed.

(** An interval variable that is unset, empty or not an integer makes
    [fromEnvInt] fail. *)
Lemma fromEnvInt_fails (env : Env) (name : string) :
  env !! computeEnvName name = None
  ∨ (∃ v, env !! computeEnvName name = Some v ∧ snd (strconv.Atoi v) ≠ None) →
  ∃ e, fromEnvInt env name = (-1, Some e).
Proof.
  intros [E|(v & E & Hv)]; unfold fromEnvInt.
  - rewrite (fromEnv_unset _ _ E). by eexists.
  - destruct (decide (v = "")) as [->|Hne].
    + rewrite (fromEnv_empty _ _ E). by eexists.
    + rewrite (fromEnv_set _ _ _ E Hne).
      destruct (strconv.Atoi v) as [n [e|]]; [by eexists|done].
Qed.

(** C1. Overrides are independent and leave the rest as it was.  With
    [GOBOT_LUX_INTERVAL_S=45], no other resolver variable set and a
    sensor part that the environment leaves at its default,
    [ConfigFromEnv] returns the default configuration with
    [IntervalSecs = 45].  In every environment each field is the value
    of its own variable when the lookup and the parse succeed and the
    default otherwise, whatever the other variables hold; the function
    returns a configuration and no error.  An interval variable that is
    unset or does not parse leaves [IntervalSecs] at the default, and
    with nothing else set the result is the default configuration. *)
Theorem ConfigFromEnv_independent_overrides (env : Env) :
  (env !! "GOBOT_LUX_INTERVAL_S" = Some "45" → only_interval_set env →
     SensorConfig_ConfigFromEnv env defaultSensorConfig = defaultSensorConfig →
     ConfigFromEnv env = set_IntervalSecs 45 DefaultConfig)
  ∧ ConfigFromEnv env =
      {| Placement := resolved (fromEnv env "LOCATION") (Placement DefaultConfig);
         MetricConfig :=
           resolved (fromEnv env "METRICS_ADDR") (MetricConfig DefaultConfig);
         IntervalSecs :=
           resolved (fromEnvInt env "INTERVAL_S") (IntervalSecs DefaultConfig);
         StatIntervals := StatIntervals DefaultConfig;
         LogSensor := resolved (fromEnvBool env "LOG_SENSOR") (LogSensor DefaultConfig);
         Mqtt :=
           {| Host := resolved (fromEnv env "MQTT_HOST") (Host (Mqtt DefaultConfig));
              Topic := resolved (fromEnv env "MQTT_TOPIC") (Topic (Mqtt DefaultConfig));
              StatsTopic :=
                resolved (fromEnv env "MQTT_STATS_TOPIC")
                  (StatsTopic (Mqtt DefaultConfig));
              ClientKeyFile :=
                resolved (fromEnv env "SSL_CLIENT_KEY_FILE")
                  (ClientKeyFile (Mqtt DefaultConfig));
              ClientCertFile :=
                resolved (fromEnv env "SSL_CLIENT_CERT_FILE")
                  (ClientCertFile (Mqtt DefaultConfig));
              MqttRest := MqttRest (Mqtt DefaultConfig) |};
         Sensor := SensorConfig_ConfigFromEnv env (Sensor DefaultConfig) |}
  ∧ (env !! "GOBOT_LUX_INTERVAL_S" = None
     ∨ (∃ v, env !! "GOBOT_LUX_INTERVAL_S" = Some v ∧ snd (strconv.Atoi v) ≠ None) →
     IntervalSecs (ConfigFromEnv env) = IntervalSecs DefaultConfig
     ∧ (only_interval_set env →
        SensorConfig_ConfigFromEnv env defaultSensorConfig = defaultSensorConfig →
        ConfigFromEnv env = DefaultConfig)).
Proof.
  split; [|split].
  - intros H45 Ho Hs.
    apply (ConfigFromEnv_only_interval env (45, None)); [done| |done].
    unfold fromEnvInt. by rewrite (fromEnv_set env "INTERVAL_S" "45" H45).
  - apply ConfigFromEnv_fields.
  - intros Hbad. destruct (fromEnvInt_fails env "INTERVAL_S" Hbad) as [e He].
    split.
    + rewrite ConfigFromEnv_fields. simpl. by rewrite He.
    + intros Ho Hs. by rewrite (ConfigFromEnv_only_interval env _ Ho He Hs).
Qed.

(** C9. A variable set to the empty string is treated as an unset one.
    The three lookups return the same on an environment with [k] set to
    the empty string and on one without [k], and they fail on the
    variable itself; the resolved configurations agree on every field
    [ConfigFromEnv] itself resolves; and a string field that is empty
    after resolution had an empty default and a failed lookup, so the
    environment cannot set it to the empty string. *)
Theorem ConfigFromEnv_empty_is_unset (env : Env) (k : string) :
  (∀ name,
     fromEnv (<[k := ""]> env) name = fromEnv (delete k env) name
     ∧ fromEnvInt (<[k := ""]> env) name = fromEnvInt (delete k env) name
     ∧ fromEnvBool (<[k := ""]> env) name = fromEnvBool (delete k env) name)
  ∧ (∀ name, computeEnvName name = k →
       fromEnv (<[k := ""]> env) name = ("", Some (errorString "not defined"))
       ∧ fromEnvInt (<[k := ""]> env) name = (-1, Some (errorString "not defined"))
       ∧ fromEnvBool (<[k := ""]> env) name = (false, Some (errorString "not defined")))
  ∧ (∀ s : SensorConfig,
       set_Sensor s (ConfigFromEnv (<[k := ""]> env))
       = set_Sensor s (ConfigFromEnv (delete k env)))
  ∧ (∀ (field : Config → string) (name : string),
       (field, name) ∈
         [(Placement, "LOCATION");
          (MetricConfig, "METRICS_ADDR");
          (λ c, Host (Mqtt c), "MQTT_HOST");
          (λ c, Topic (Mqtt c), "MQTT_TOPIC");
          (λ c, StatsTopic (Mqtt c), "MQTT_STATS_TOPIC");
          (λ c, ClientKeyFile (Mqtt c), "SSL_CLIENT_KEY_FILE");
          (λ c, ClientCertFile (Mqtt c), "SSL_CLIENT_CERT_FILE")] →
       field (ConfigFromEnv env) = "" →
       field DefaultConfig = ""
       ∧ fromEnv env name = ("", Some (errorString "not defined"))).
Proof.
  assert (Hsame : ∀ name,
            fromEnv (<[k := ""]> env) name = fromEnv (delete k env) name).
  { intros name. unfold fromEnv. by rewrite Getenv_empty_delete. }
  split; [|split; [|split]].
  - intros name. split; [done|].
    unfold fromEnvInt, fromEnvBool. by rewrite Hsame.
  - intros name <-.
    assert (E : fromEnv (<[computeEnvName name := ""]> env) name
                = ("", Some (errorString "not defined"))).
    { apply fromEnv_empty. by rewrite lookup_insert_eq. }
    split; [done|]. unfold fromEnvInt, fromEnvBool. by rewrite E.
  - intros s. rewrite !ConfigFromEnv_fields. unfold set_Sensor. simpl.
    unfold fromEnvInt, fromEnvBool. by rewrite !Hsame.
  - intros field name Hin Hempty. rewrite ConfigFromEnv_fields in Hempty.
    assert (Hr : resolved (fromEnv env name) (field DefaultConfig) = "").
    { repeat (apply elem_of_cons in Hin as [[= -> ->]|Hin]; [exact Hempty|]).
      by apply elem_of_nil in Hin. }
    destruct (resolved_string_empty _ _ env name eq_refl Hr) as [Hd He].
    split; [done|]. destruct (fromEnv env name) as [v [e|]] eqn:E; [|done].
    apply fromEnv_error in E as [-> ->]. done.
Qed.

End EnvResolution.

Lemma only_interval_set_closed (env : Env) :
  Forall (λ n, n = "GOBOT_LUX_INTERVAL_S" ∨ env !! n = None) resolverVariables →
  only_interval_set env.
Proof.
  intros Hall n Hin Hne. rewrite Forall_forall in Hall.
  by destruct (Hall n Hin).
Qed.

(** Decides [only_interval_set] on a closed environment. *)
Ltac closed_only_interval_set :=
  apply only_interval_set_closed; unfold resolverVariables; cbn [fmap list_fmap];
  repeat (constructor; [first [left; reflexivity | right; reflexivity]|]);
  constructor.

(** The interval set to 45, then to a word, in an otherwise foreign
    environment. *)
Lemma ConfigFromEnv_independent_overrides_witness :
  ConfigFromEnv Sample.env45 = set_IntervalSecs 45 (DefaultConfig : Sample.Config)
  ∧ IntervalSecs (ConfigFromEnv Sample.envNotANumber : Sample.Config) = 30
  ∧ ConfigFromEnv Sample.envNotANumber = (DefaultConfig : Sample.Config).
Proof.
  assert (H45 : only_interval_set Sample.env45) by closed_only_interval_set.
  assert (Hnan : only_interval_set Sample.envNotANumber) by closed_only_interval_set.
  assert (Hbad : Sample.envNotANumber !! "GOBOT_LUX_INTERVAL_S" = None
                 ∨ (∃ v, Sample.envNotANumber !! "GOBOT_LUX_INTERVAL_S" = Some v
                         ∧ snd (strconv.Atoi v) ≠ None)).
  { right. exists "notanumber". split; [reflexivity | discriminate]. }
  split; [|split].
  - destruct (ConfigFromEnv_independent_overrides (Rest:=unit) Sample.env45)
      as (H & _ & _).
    apply H; [reflexivity | exact H45 | reflexivity].
  - destruct (ConfigFromEnv_independent_overrides (Rest:=unit) Sample.envNotANumber)
      as (_ & _ & H).
    destruct (H Hbad) as [Hi _]. exact Hi.
  - destruct (ConfigFromEnv_independent_overrides (Rest:=unit) Sample.envNotANumber)
      as (_ & _ & H).
    destruct (H Hbad) as [_ Hd]. apply Hd; [exact Hnan | reflexivity].
Defined.

(** A malformed boolean beside a valid integer and a valid string. *)
Example ConfigFromEnv_mixed :
  (ConfigFromEnv Sample.envMixed : Sample.Config)
  = set_Sensor (Sample.mkSensorConfig 250)
      (set_Placement "attic" (set_IntervalSecs 45 DefaultConfig)).
Proof. vm_compute. reflexivity. Qed.

(** The placement variable set to the empty string over an environment
    that had it set. *)
Lemma ConfigFromEnv_empty_is_unset_witness :
  fromEnv (<["GOBOT_LUX_LOCATION" := ""]> Sample.envMixed) "LOCATION"
  = ("", Some (errorString "not defined"))
  ∧ (∀ s : Sample.SensorConfig,
       set_Sensor s (ConfigFromEnv (<["GOBOT_LUX_LOCATION" := ""]> Sample.envMixed)
                     : Sample.Config)
       = set_Sensor s (ConfigFromEnv (delete "GOBOT_LUX_LOCATION" Sample.envMixed)))
  ∧ (Placement (DefaultConfig : Sample.Config) = ""
     ∧ fromEnv (<["GOBOT_LUX_LOCATION" := ""]> Sample.envMixed) "LOCATION"
       = ("", Some (errorString "not defined"))).
Proof.
  split; [|split].
  - destruct (ConfigFromEnv_empty_is_unset (Rest:=unit) (SensorConfig:=Sample.SensorConfig)
                Sample.envMixed "GOBOT_LUX_LOCATION") as (_ & H & _).
    destruct (H "LOCATION" eq_refl) as [Hs _]. exact Hs.
  - destruct (ConfigFromEnv_empty_is_unset (Rest:=unit) (SensorConfig:=Sample.SensorConfig)
                Sample.envMixed "GOBOT_LUX_LOCATION") as (_ & _ & H & _).
    exact H.
  - destruct (ConfigFromEnv_empty_is_unset (Rest:=unit) (SensorConfig:=Sample.SensorConfig)
                (<["GOBOT_LUX_LOCATION" := ""]> Sample.envMixed) "GOBOT_LUX_LOCATION")
      as (_ & _ & _ & H).
    apply (H Placement "LOCATION"); [left | vm_compute; reflexivity].
Defined.

Example ConfigFromEnv_empty_placement :
  (ConfigFromEnv (<["GOBOT_LUX_LOCATION" := ""]> Sample.envMixed) : Sample.Config)
  = set_Sensor (Sample.mkSensorConfig 250) (set_IntervalSecs 45 DefaultConfig).
Proof. vm_compute. reflexivity. Qed.

Example Print_kitchen :
  Print (λ s : Sample.SensorConfig, ["AioPollingIntervalMs=" ++ fmt_d (Sample.pollingIntervalMs s)])
    (set_StatsTopic "home/kitchen/stats" Sample.kitchen)
  = ["-----------------"; "Configuration:"; "Placement=kitchen"; "LogSensor=false";
     "MetricConfig=:9194"; "IntervalSecs=30"; "Host=mqtt.example.com:1883";
     "Topic=home/kitchen/lux"; "StatsTopic=home/kitchen/lux";
     "StatIntervals=[15 30 60 120 300 600 1800]"; "AioPollingIntervalMs=75";
     "-----------------"].
Proof. vm_compute. reflexivity. Qed.

(** * Further properties *)

(** ** What each result of the sequential checks means *)

Section SequentialResults.
Context {Rest SensorConfig : Type} `{!MqttSchema Rest} `{!SensorSchema SensorConfig}.
Implicit Types conf : Config Rest SensorConfig.
Variable isTCPAddrResolvable : string → bool.

Local Abbreviation aioSecs conf := (Z.quot (AioPollingIntervalMs (Sensor conf)) 1000).

Lemma is_minimum_nonempty (m : Z) (l : list Z) : is_minimum m l → l ≠ [].
Proof. intros [Hin _] ->. by apply elem_of_nil in Hin. Qed.

Lemma is_maximum_nonempty (M : Z) (l : list Z) : is_maximum M l → l ≠ [].
Proof. intros [Hin _] ->. by apply elem_of_nil in Hin. Qed.

Lemma Validat2e_explained conf (e : Validat2eError) :
  Validat2e conf = Some e → explains conf e.
Proof.
  destruct (decide (Placement conf = "")) as [E|HP].
  { rewrite (Validat2e_placement conf E). by intros [= <-]. }
  destruct (Z.lt_ge_cases (IntervalSecs conf) 1) as [Hlt|H1].
  { rewrite (Validat2e_below_one conf HP Hlt). by intros [= <-]. }
  destruct (Z.lt_ge_cases (IntervalSecs conf) (aioSecs conf)) as [Hlt|Ha].
  { rewrite (Validat2e_below_aio conf HP H1 Hlt). intros [= <-]. simpl. auto with lia. }
  destruct (Z.lt_ge_cases 300 (IntervalSecs conf)) as [Hlt|H300].
  { rewrite (Validat2e_above_300 conf HP Ha Hlt). by intros [= <-]. }
  rewrite Validat2e_past_interval by (done || lia).
  destruct (SensorConfig_Validate (Sensor conf)) as [msg|] eqn:ES.
  { intros [= <-]. simpl. auto with lia. }
  destruct (StatIntervals conf) as [|a l] eqn:El; [done|].
  destruct (GetStatIntervalMin_nonempty conf) as (m & Em & Hm); [by rewrite El|].
  destruct (GetStatIntervalMax_nonempty conf) as (M & EM & HM); [by rewrite El|].
  rewrite Em, EM. simpl.
  destruct (Z.ltb_spec m 1) as [Hm1|Hm1].
  { intros [= <-]. simpl. auto 10 with lia. }
  destruct (Z.ltb_spec maxStatsBucketSeconds M) as [HM1|HM1]; [|done].
  intros [= <-]. simpl. repeat (split; [done || lia|]).
  split; [|done]. intros x Hx. destruct Hm as [_ Hle]. specialize (Hle x Hx). lia.
Qed.

Lemma explained_Validat2e conf (e : Validat2eError) :
  explains conf e → Validat2e conf = Some e.
Proof.
  destruct e; simpl.
  - apply Validat2e_placement.
  - intros (HP & -> & Hlt). by apply Validat2e_below_one.
  - intros (HP & -> & -> & H1 & Hlt). by apply Validat2e_below_aio.
  - intros (HP & -> & Ha & Hlt). by apply Validat2e_above_300.
  - intros (HP & Hi & Ha & Hs). rewrite Validat2e_past_interval by done. by rewrite Hs.
  - intros (HP & Hi & Ha & Hs & Hm & Hlt).
    rewrite Validat2e_past_interval by done. rewrite Hs.
    rewrite (GetStatIntervalMin_is _ _ Hm). simpl.
    pose proof (is_minimum_nonempty _ _ Hm).
    destruct (StatIntervals conf); [done|].
    by rewrite (proj2 (Z.ltb_lt min 1)).
  - intros (HP & Hi & Ha & Hs & Hall & -> & HM & Hgt).
    rewrite Validat2e_past_interval by done. rewrite Hs.
    pose proof (is_maximum_nonempty _ _ HM) as Hne.
    destruct (GetStatIntervalMin_nonempty conf Hne) as (m & Em & Hm).
    rewrite Em, (GetStatIntervalMax_is _ _ HM). simpl.
    destruct (StatIntervals conf) as [|a l] eqn:El; [done|].
    destruct Hm as [Hin _]. apply Hall in Hin.
    rewrite (proj2 (Z.ltb_ge m 1)) by done.
    by rewrite (proj2 (Z.ltb_lt maxStatsBucketSeconds max)).
Qed.

(** X1. [Validat2e] returns the error [e] exactly when the check [e]
    names is the first one to fail, on the value [e] carries: every check
    before it passed, and the bucket errors carry the least and the
    greatest element of the list. *)
Theorem Validat2e_reports_first_failure conf (e : Validat2eError) :
  Validat2e conf = Some e ↔ explains conf e.
Proof. split; [apply Validat2e_explained | apply explained_Validat2e]. Qed.

(** X2. [Validat2e] returns nil exactly when the placement is not empty,
    the interval lies in [1, 300] and is not below
    [AioPollingIntervalMs/1000], the sensor part validates and every
    bucket lies in [1, 7200]. *)
Theorem Validat2e_succeeds_iff conf :
  Validat2e conf = None ↔
    Placement conf ≠ "" ∧ 1 <= IntervalSecs conf <= 300
    ∧ aioSecs conf <= IntervalSecs conf
    ∧ SensorConfig_Validate (Sensor conf) = None
    ∧ ∀ x, x ∈ StatIntervals conf → 1 <= x <= 7200.
Proof. apply Validat2e_None. Qed.

(** X3. [Validate] returns nil exactly when the placement is not empty,
    the metrics address is empty or resolves, the interval lies in
    [1, 300], every bucket lies in [10, 3600] and the tags of the broker
    part and of the sensor part report nothing. *)
Theorem Validate_succeeds_iff conf :
  Validate isTCPAddrResolvable conf = None ↔
    Placement conf ≠ ""
    ∧ (MetricConfig conf = "" ∨ isTCPAddrResolvable (MetricConfig conf) = true)
    ∧ 1 <= IntervalSecs conf <= 300
    ∧ (∀ x, x ∈ StatIntervals conf → 10 <= x <= 3600)
    ∧ MqttConfig_Struct (Mqtt conf) = []
    ∧ SensorConfig_Struct (Sensor conf) = [].
Proof. apply Validate_None. Qed.

(** X4. The struct-tag path is the stricter one on the rules the two
    share: a configuration that passes [Validate] passes [Validat2e] as
    soon as the two checks only [Validat2e] makes pass, the cross-field
    one and the sensor part's own. *)
Theorem Validate_implies_Validat2e conf :
  Validate isTCPAddrResolvable conf = None →
  aioSecs conf <= IntervalSecs conf →
  SensorConfig_Validate (Sensor conf) = None →
  Validat2e conf = None.
Proof.
  intros (HP & _ & Hi & Hl & _)%Validate_None Ha Hs.
  apply Validat2e_None. repeat (split; [done|]).
  intros x Hx. specialize (Hl x Hx). unfold maxStatsBucketSeconds. lia.
Qed.

(** X5. [Validat2e] looks at the placement, the interval, the sensor part
    and the buckets only: the log flag, the metrics address and the whole
    broker part do not change its result. *)
Theorem Validat2e_ignores_broker_and_metrics conf
    (flag : bool) (addr : string) (broker : MqttConfig Rest) :
  Validat2e (set_LogSensor flag (set_MetricConfig addr (set_Mqtt broker conf)))
  = Validat2e conf.
Proof. reflexivity. Qed.

End SequentialResults.

(** ** The order of the buckets *)

Lemma is_minimum_perm (m : Z) (l l' : list Z) :
  l ≡ₚ l' → is_minimum m l → is_minimum m l'.
Proof.
  intros Hp [Hin Hle]. split; [by rewrite <- Hp|].
  intros x Hx. apply Hle. by rewrite Hp.
Qed.

Lemma is_maximum_perm (M : Z) (l l' : list Z) :
  l ≡ₚ l' → is_maximum M l → is_maximum M l'.
Proof.
  intros Hp [Hin Hle]. split; [by rewrite <- Hp|].
  intros x Hx. apply Hle. by rewrite Hp.
Qed.

Section BucketOrder.
Context {Rest SensorConfig : Type} `{!MqttSchema Rest} `{!SensorSchema SensorConfig}.
Implicit Types conf : Config Rest SensorConfig.
Variable isTCPAddrResolvable : string → bool.

Lemma GetStatInterval_perm conf (l' : list Z) :
  StatIntervals conf ≡ₚ l' →
  GetStatIntervalMin (set_StatIntervals l' conf) = GetStatIntervalMin conf
  ∧ GetStatIntervalMax (set_StatIntervals l' conf) = GetStatIntervalMax conf.
Proof.
  intros Hp. destruct (StatIntervals conf) as [|a l] eqn:El.
  { apply Permutation_nil in Hp. subst l'.
    unfold GetStatIntervalMin, GetStatIntervalMax. simpl. by rewrite El. }
  destruct (GetStatIntervalMin_nonempty conf) as (m & -> & Hm); [by rewrite El|].
  destruct (GetStatIntervalMax_nonempty conf) as (M & -> & HM); [by rewrite El|].
  rewrite El in Hm, HM. split.
  - apply GetStatIntervalMin_is. simpl. by apply (is_minimum_perm _ _ _ Hp).
  - apply GetStatIntervalMax_is. simpl. by apply (is_maximum_perm _ _ _ Hp).
Qed.

(** X6. The order of the buckets is irrelevant to validation: on a
    rearrangement of [StatIntervals] the two helpers return the same,
    [Validat2e] returns the same, error included, and [Validate] succeeds
    on the one exactly when it succeeds on the other. *)
Theorem validation_ignores_bucket_order conf (l' : list Z) :
  StatIntervals conf ≡ₚ l' →
  GetStatIntervalMin (set_StatIntervals l' conf) = GetStatIntervalMin conf
  ∧ GetStatIntervalMax (set_StatIntervals l' conf) = GetStatIntervalMax conf
  ∧ Validat2e (set_StatIntervals l' conf) = Validat2e conf
  ∧ (Validate isTCPAddrResolvable (set_StatIntervals l' conf) = None
     ↔ Validate isTCPAddrResolvable conf = None).
Proof.
  intros Hp. destruct (GetStatInterval_perm conf l' Hp) as [Hmin Hmax].
  split; [done|]. split; [done|]. split.
  - unfold Validat2e. rewrite Hmin, Hmax. simpl.
    by rewrite (Permutation_length Hp).
  - rewrite !Validate_None. simpl.
    assert (Hiff : (∀ x, x ∈ l' → 10 <= x <= 3600)
                   ↔ (∀ x, x ∈ StatIntervals conf → 10 <= x <= 3600)).
    { split; intros Hall x Hx; apply Hall; [by rewrite <- Hp|by rewrite Hp]. }
    by rewrite Hiff.
Qed.

End BucketOrder.

(** ** Variable names *)

Lemma upper_byte_idemp (c : ascii) :
  strings.upper_byte (strings.upper_byte c) = strings.upper_byte c.
Proof. by destruct c as [[] [] [] [] [] [] [] []]. Qed.

Lemma ToUpper_idemp (s : string) : strings.ToUpper (strings.ToUpper s) = strings.ToUpper s.
Proof. induction s as [|c s IH]; simpl; [done|]. by rewrite upper_byte_idemp, IH. Qed.

Lemma ToUpper_app (s t : string) :
  strings.ToUpper (s ++ t) = strings.ToUpper s ++ strings.ToUpper t.
Proof. induction s as [|c s IH]; simpl; [done|]. by rewrite IH. Qed.

Lemma computeEnvName_prefix (name : string) :
  computeEnvName name = "GOBOT_LUX_" ++ strings.ToUpper name.
Proof. reflexivity. Qed.

Lemma computeEnvName_upper (name : string) :
  strings.ToUpper (computeEnvName name) = computeEnvName name.
Proof.
  rewrite computeEnvName_prefix, ToUpper_app, ToUpper_idemp. reflexivity.
Qed.

(** X7. Variable names are upper-cased before the lookup.  Every name
    looked up is [GOBOT_LUX_] followed by the upper-cased field name; two
    field names that differ in case only give the same lookups; and a
    variable whose own name holds a lower-case letter is never read: adding
    it to the environment changes no lookup. *)
Theorem lookups_are_upper_case (env : Env) (name : string) :
  computeEnvName name = "GOBOT_LUX_" ++ strings.ToUpper name
  ∧ (∀ name', strings.ToUpper name' = strings.ToUpper name →
       fromEnv env name' = fromEnv env name
       ∧ fromEnvInt env name' = fromEnvInt env name
       ∧ fromEnvBool env name' = fromEnvBool env name)
  ∧ (∀ k v, strings.ToUpper k ≠ k →
       fromEnv (<[k := v]> env) name = fromEnv env name
       ∧ fromEnvInt (<[k := v]> env) name = fromEnvInt env name
       ∧ fromEnvBool (<[k := v]> env) name = fromEnvBool env name).
Proof.
  split; [reflexivity|]. split.
  - intros name' Hup.
    assert (E : fromEnv env name' = fromEnv env name).
    { unfold fromEnv. by rewrite !computeEnvName_prefix, Hup. }
    unfold fromEnvInt, fromEnvBool. by rewrite E.
  - intros k v Hk.
    assert (E : fromEnv (<[k := v]> env) name = fromEnv env name).
    { unfold fromEnv, os.Getenv. rewrite lookup_insert_ne; [done|].
      intros ->. by apply Hk, computeEnvName_upper. }
    unfold fromEnvInt, fromEnvBool. by rewrite E.
Qed.

Lemma lookups_are_upper_case_witness :
  fromEnvInt Sample.env45 "interval_s" = fromEnvInt Sample.env45 "INTERVAL_S"
  ∧ fromEnvInt (<["gobot_lux_interval_s" := "60"]> Sample.env45) "INTERVAL_S"
    = fromEnvInt Sample.env45 "INTERVAL_S".
Proof.
  split.
  - destruct (lookups_are_upper_case Sample.env45 "INTERVAL_S") as (_ & H & _).
    destruct (H "interval_s" eq_refl) as (_ & Hi & _). exact Hi.
  - destruct (lookups_are_upper_case Sample.env45 "INTERVAL_S") as (_ & _ & H).
    destruct (H "gobot_lux_interval_s" "60") as (_ & Hi & _); [discriminate|].
    exact Hi.
Defined.

(** ** What the resolver reads, and what validation makes of its result *)

Section ResolvedConfig.
Context {Rest SensorConfig : Type} `{!MqttSchema Rest} `{!SensorSchema SensorConfig}.
Local Abbreviation Config := (Config Rest SensorConfig).
Local Abbreviation aioSecs conf := (Z.quot (AioPollingIntervalMs (Sensor conf)) 1000).

Lemma fromEnv_Getenv (env env' : Env) (name : string) :
  os.Getenv env (computeEnvName name) = os.Getenv env' (computeEnvName name) →
  fromEnv env name = fromEnv env' name
  ∧ fromEnvInt env name = fromEnvInt env' name
  ∧ fromEnvBool env name = fromEnvBool env' name.
Proof.
  intros E. assert (E' : fromEnv env name = fromEnv env' name).
  { unfold fromEnv. by rewrite E. }
  unfold fromEnvInt, fromEnvBool. by rewrite E'.
Qed.

(** X8. The resolver reads nine variables and nothing else: two
    environments in which [os.Getenv] agrees on them, whatever else they
    hold, resolve to configurations that agree on every field outside the
    sensor part, which has a resolver of its own. *)
Theorem ConfigFromEnv_reads_nine_variables (env env' : Env) (s : SensorConfig) :
  (∀ k, k ∈ resolverVariables → os.Getenv env k = os.Getenv env' k) →
  set_Sensor s (ConfigFromEnv env : Config) = set_Sensor s (ConfigFromEnv env').
Proof.
  intros Hagree.
  assert (Hname : ∀ name, computeEnvName name ∈ resolverVariables →
            fromEnv env name = fromEnv env' name
            ∧ fromEnvInt env name = fromEnvInt env' name
            ∧ fromEnvBool env name = fromEnvBool env' name).
  { intros name Hin. apply fromEnv_Getenv, Hagree, Hin. }
  rewrite !ConfigFromEnv_fields. unfold set_Sensor. simpl.
  destruct (Hname "LOCATION") as (-> & _ & _); [by repeat constructor|].
  destruct (Hname "LOG_SENSOR") as (_ & _ & ->); [by repeat constructor|].
  destruct (Hname "INTERVAL_S") as (_ & -> & _); [by repeat constructor|].
  destruct (Hname "MQTT_HOST") as (-> & _ & _); [by repeat constructor|].
  destruct (Hname "MQTT_TOPIC") as (-> & _ & _); [by repeat constructor|].
  destruct (Hname "MQTT_STATS_TOPIC") as (-> & _ & _); [by repeat constructor|].
  destruct (Hname "METRICS_ADDR") as (-> & _ & _); [by repeat constructor|].
  destruct (Hname "SSL_CLIENT_KEY_FILE") as (-> & _ & _); [by repeat constructor|].
  destruct (Hname "SSL_CLIENT_CERT_FILE") as (-> & _ & _); [by repeat constructor|].
  reflexivity.
Qed.





(** X10. Logging of sensor readings is switched on by the environment
    exactly when [GOBOT_LUX_LOG_SENSOR] holds one of the six spellings of
    true that [strconv.ParseBool] accepts; any other value, [yes] or
    [TrUe] say, leaves it off. *)
Theorem LogSensor_of_ConfigFromEnv (env : Env) :
  LogSensor (ConfigFromEnv env : Config) = true
  ↔ os.Getenv env "GOBOT_LUX_LOG_SENSOR" ∈ ["1"; "t"; "T"; "true"; "TRUE"; "True"].
Proof.
  rewrite ConfigFromEnv_fields. simpl. unfold fromEnvBool, fromEnv.
  change (computeEnvName "LOG_SENSOR") with "GOBOT_LUX_LOG_SENSOR".
  case_bool_decide as Hempty; simpl.
  - rewrite Hempty. split; [done|]. intros Hin. exfalso.
    repeat (apply elem_of_cons in Hin as [Hin|Hin]; [discriminate|]).
    by apply elem_of_nil in Hin.
  - unfold strconv.ParseBool. case_bool_decide as Ht; simpl; [done|].
    case_bool_decide as Hf; simpl; split; done.
Qed.

End ResolvedConfig.

Example LogSensor_yes :
  LogSensor (ConfigFromEnv {[ "GOBOT_LUX_LOG_SENSOR" := "yes" ]} : Sample.Config) = false
  ∧ LogSensor (ConfigFromEnv {[ "GOBOT_LUX_LOG_SENSOR" := "TrUe" ]} : Sample.Config) = false
  ∧ LogSensor (ConfigFromEnv {[ "GOBOT_LUX_LOG_SENSOR" := "T" ]} : Sample.Config) = true.
Proof. vm_compute. done. Qed.

Lemma Validate_implies_Validat2e_witness : Validat2e Sample.kitchen = None.
Proof.
  apply (Validate_implies_Validat2e Sample.hasColon Sample.kitchen);
    [vm_compute; reflexivity | discriminate | reflexivity].
Defined.

Lemma validation_ignores_bucket_order_witness :
  GetStatIntervalMin (set_StatIntervals [1800; 600; 300; 120; 60; 30; 15] Sample.kitchen)
  = GetStatIntervalMin Sample.kitchen
  ∧ GetStatIntervalMax (set_StatIntervals [1800; 600; 300; 120; 60; 30; 15] Sample.kitchen)
    = GetStatIntervalMax Sample.kitchen
  ∧ Validat2e (set_StatIntervals [1800; 600; 300; 120; 60; 30; 15] Sample.kitchen)
    = Validat2e Sample.kitchen
  ∧ (Validate Sample.hasColon
       (set_StatIntervals [1800; 600; 300; 120; 60; 30; 15] Sample.kitchen) = None
     ↔ Validate Sample.hasColon Sample.kitchen = None).
Proof.
  apply (validation_ignores_bucket_order Sample.hasColon Sample.kitchen
           [1800; 600; 300; 120; 60; 30; 15]).
  apply (Permutation_rev defaultStatsBucketsSeconds).
Defined.

Lemma ConfigFromEnv_reads_nine_variables_witness :
  set_Sensor (Sample.mkSensorConfig 75) (ConfigFromEnv Sample.env45 : Sample.Config)
  = set_Sensor (Sample.mkSensorConfig 75)
      (ConfigFromEnv (<["PATH" := "/usr/bin"]> Sample.env45)).
Proof.
  apply (ConfigFromEnv_reads_nine_variables (Rest:=unit)).
  apply Forall_forall. unfold resolverVariables. cbn [fmap list_fmap].
  repeat (constructor; [vm_compute; reflexivity|]). constructor.
Defined.

(** ** Printing and loading *)

Lemma strlen_pos (s : string) : (0 <? strconv.strlen s) = true ↔ s ≠ "".
Proof.
  unfold strconv.strlen. destruct s as [|c s]; simpl; [done|].
  split; [done|]. intros _. apply Z.ltb_lt. lia.
Qed.

Section PrintingAndLoading.
Context {Rest SensorConfig : Type} `{!MqttSchema Rest} `{!SensorSchema SensorConfig}.
Local Abbreviation Config := (Config Rest SensorConfig).
Variable SensorConfig_Print : SensorConfig → list string.
Variable ReadFile : string → list Byte.byte * option string.
Variable Unmarshal : list Byte.byte → Config → Config * option json.Error.

(** X11. [Print] never shows the stats topic: when one is set, the record
    labelled [StatsTopic=] carries the value of [Topic], so two
    configurations that differ in a non-empty stats topic only print the
    same.  The paths of the client key and certificate are not printed
    either. *)
Theorem Print_hides_stats_topic (conf : Config) :
  (StatsTopic (Mqtt conf) ≠ "" →
     "StatsTopic=" +:+ Topic (Mqtt conf) ∈ Print SensorConfig_Print conf)
  ∧ (∀ s s', s ≠ "" → s' ≠ "" →
       Print SensorConfig_Print (set_StatsTopic s conf)
       = Print SensorConfig_Print (set_StatsTopic s' conf))
  ∧ (∀ key cert,
       Print SensorConfig_Print (set_ClientKeyFile key (set_ClientCertFile cert conf))
       = Print SensorConfig_Print conf).
Proof.
  split; [|split].
  - intros Hs. unfold Print. rewrite (proj2 (strlen_pos _) Hs).
    apply elem_of_app; right. apply elem_of_app; left. by left.
  - intros s s' Hs Hs'. unfold Print. simpl.
    by rewrite (proj2 (strlen_pos s) Hs), (proj2 (strlen_pos s') Hs').
  - reflexivity.
Qed.

(** X12. [ReadJsonConfig] returns a nil configuration exactly when the
    file could not be read, and a nil error exactly when the read and the
    decoding both succeeded; whenever the file was read, the configuration
    returned is what the decoder made of [DefaultConfig], so a key the
    decoder does not touch keeps its default. *)
Theorem ReadJsonConfig_results (filePath : string) :
  (fst (ReadJsonConfig ReadFile Unmarshal filePath) = None
   ↔ snd (ReadFile filePath) ≠ None)
  ∧ (snd (ReadJsonConfig ReadFile Unmarshal filePath) = None
     ↔ snd (ReadFile filePath) = None
       ∧ snd (Unmarshal (fst (ReadFile filePath)) DefaultConfig) = None)
  ∧ (snd (ReadFile filePath) = None →
     fst (ReadJsonConfig ReadFile Unmarshal filePath)
     = Some (fst (Unmarshal (fst (ReadFile filePath)) DefaultConfig))).
Proof.
  unfold ReadJsonConfig.
  destruct (ReadFile filePath) as [content [e|]]; simpl.
  - repeat split; try done. by intros [? _].
  - destruct (Unmarshal content DefaultConfig) as [ret [e|]]; simpl;
      repeat split; try done. by intros [_ ?].
Qed.

End PrintingAndLoading.

Lemma Print_hides_stats_topic_witness :
  "StatsTopic=" +:+ "home/kitchen/lux"
  ∈ Print (λ _ : Sample.SensorConfig, []) (set_StatsTopic "home/kitchen/stats" Sample.kitchen)
  ∧ Print (λ _ : Sample.SensorConfig, []) (set_StatsTopic "home/kitchen/stats" Sample.kitchen)
    = Print (λ _ : Sample.SensorConfig, []) (set_StatsTopic "elsewhere" Sample.kitchen).
Proof.
  destruct (Print_hides_stats_topic (λ _ : Sample.SensorConfig, [])
              (set_StatsTopic "home/kitchen/stats" Sample.kitchen)) as (H1 & H2 & _).
  split.
  - apply H1. discriminate.
  - apply H2; discriminate.
Defined.

Lemma ReadJsonConfig_results_witness :
  fst (ReadJsonConfig (Sample.ReadFile Sample.emptyObject) Sample.Unmarshal
         Sample.configPath)
  = Some (DefaultConfig : Sample.Config).
Proof.
  destruct (ReadJsonConfig_results (Sample.ReadFile Sample.emptyObject) Sample.Unmarshal
              Sample.configPath) as (_ & _ & H).
  exact (H eq_refl).
Defined.

(** ** Integers through the environment *)

Lemma digits_value_of_uint_acc (d : Decimal.uint) :
  ∀ acc : positive, digits_value d (Z.pos acc) = Z.pos (Pos.of_uint_acc d acc).
Proof.
  induction d as [|d IH|d IH|d IH|d IH|d IH|d IH|d IH|d IH|d IH|d IH];
    intros acc; simpl; [done|..].
  - rewrite <- IH. f_equal. lia.
  - rewrite <- IH. f_equal. lia.
  - rewrite <- IH. f_equal. lia.
  - rewrite <- IH. f_equal. lia.
  - rewrite <- IH. f_equal. lia.
  - rewrite <- IH. f_equal. lia.
  - rewrite <- IH. f_equal. lia.
  - rewrite <- IH. f_equal. lia.
  - rewrite <- IH. f_equal. lia.
  - rewrite <- IH. f_equal. lia.
Qed.

Lemma digits_value_of_uint (d : Decimal.uint) :
  digits_value d 0 = Z.of_N (Pos.of_uint d).
Proof.
  induction d as [|d IH|d IH|d IH|d IH|d IH|d IH|d IH|d IH|d IH|d IH];
    simpl; [done|done|..]; apply digits_value_of_uint_acc.
Qed.

Lemma digits_value_to_uint (p : positive) : digits_value (Pos.to_uint p) 0 = Z.pos p.
Proof. by rewrite digits_value_of_uint, DecimalPos.Unsigned.of_to. Qed.

Lemma digits_value_ge (d : Decimal.uint) : ∀ acc, 0 <= acc → acc <= digits_value d acc.
Proof.
  induction d as [|d IH|d IH|d IH|d IH|d IH|d IH|d IH|d IH|d IH|d IH];
    intros acc Hacc; simpl; [lia|..];
    (etrans; [|apply IH; lia]); lia.
Qed.

(** Replaces the value of a closed byte by its numeral. *)
Ltac closed_byte :=
  repeat match goal with
  | |- context [strconv.sub_zero ?c] =>
      let v := eval vm_compute in (strconv.sub_zero c) in
      change (strconv.sub_zero c) with v
  | |- context [strconv.byte_val ?c] =>
      let v := eval vm_compute in (strconv.byte_val c) in
      change (strconv.byte_val c) with v
  end.

Lemma Atoi_fast_loop_digits (d : Decimal.uint) :
  ∀ acc, strconv.Atoi_fast_loop (NilEmpty.string_of_uint d) acc
         = Some (digits_value d acc).
Proof.
  induction d as [|d IH|d IH|d IH|d IH|d IH|d IH|d IH|d IH|d IH|d IH];
    intros acc; cbn [strconv.Atoi_fast_loop NilEmpty.string_of_uint digits_value];
    [done|..]; closed_byte; apply IH.
Qed.

Lemma ParseUint_loop_digits (s0 : string) (d : Decimal.uint) :
  ∀ n, 0 <= n → digits_value d n < 2 ^ 64 →
       strconv.ParseUint_loop s0 (NilEmpty.string_of_uint d) n = (digits_value d n, None).
Proof.
  assert (Hstep : ∀ n k, 0 <= n → 0 <= k <= 9 → n * 10 + k < 2 ^ 64 →
            (strconv.maxUint64 / 10 + 1 <=? n) = false
            ∧ ((n * 10) mod 2 ^ 64 + k) mod 2 ^ 64 = n * 10 + k
            ∧ (((n * 10) mod 2 ^ 64 + k) mod 2 ^ 64 <? (n * 10) mod 2 ^ 64) = false
            ∧ (strconv.maxUint64 <? ((n * 10) mod 2 ^ 64 + k) mod 2 ^ 64) = false).
  { intros n k Hn Hk Hlt.
    assert (E1 : (n * 10) mod 2 ^ 64 = n * 10) by (apply Z.mod_small; lia).
    assert (E2 : (n * 10 + k) mod 2 ^ 64 = n * 10 + k) by (apply Z.mod_small; lia).
    rewrite E1, E2. unfold strconv.maxUint64.
    change (2 ^ 64) with 18446744073709551616 in *.
    change ((18446744073709551616 - 1) / 10 + 1) with 1844674407370955162.
    repeat split; [apply Z.leb_gt|apply Z.ltb_ge|apply Z.ltb_ge]; lia. }
  induction d as [|d IH|d IH|d IH|d IH|d IH|d IH|d IH|d IH|d IH|d IH];
    intros n Hn Hlt;
    cbn [strconv.ParseUint_loop NilEmpty.string_of_uint digits_value] in *;
    [done|..]; closed_byte;
    cbn [Z.leb Z.compare Pos.compare Pos.compare_cont andb negb];
    match goal with
    | |- context [digits_value d (n * 10 + ?k)] =>
        pose proof (digits_value_ge d (n * 10 + k) ltac:(lia)) as Hge;
        change (57 - 48) with 9; change (56 - 48) with 8; change (55 - 48) with 7;
        change (54 - 48) with 6; change (53 - 48) with 5; change (52 - 48) with 4;
        change (51 - 48) with 3; change (50 - 48) with 2; change (49 - 48) with 1;
        change (48 - 48) with 0;
        destruct (Hstep n k Hn ltac:(lia) ltac:(lia)) as (-> & E & -> & H4);
        rewrite H4, E; cbn [orb]; apply IH; [lia|done]
    end.
Qed.

Lemma to_int64_small (x : Z) : - 2 ^ 63 <= x < 2 ^ 63 → strconv.to_int64 x = x.
Proof.
  intros Hx. unfold strconv.to_int64.
  change (2 ^ 63) with 9223372036854775808 in *.
  change (2 ^ 64) with 18446744073709551616.
  rewrite Z.mod_small; lia.
Qed.

Lemma to_int64_range (x : Z) : - 2 ^ 63 <= strconv.to_int64 x < 2 ^ 63.
Proof.
  unfold strconv.to_int64.
  change (2 ^ 63) with 9223372036854775808.
  change (2 ^ 64) with 18446744073709551616.
  pose proof (Z.mod_pos_bound (x + 9223372036854775808) 18446744073709551616). lia.
Qed.

Lemma to_int64_neg (u : Z) :
  0 < u <= 2 ^ 63 → strconv.to_int64 (- strconv.to_int64 u) = - u.
Proof.
  intros Hu. destruct (decide (u = 2 ^ 63)) as [->|Hne]; [by vm_compute|].
  rewrite (to_int64_small u) by lia. apply to_int64_small. lia.
Qed.

Lemma string_of_uint_head (d : Decimal.uint) (c : ascii) (rest : string) :
  NilEmpty.string_of_uint d = String c rest → c ≠ "-"%char ∧ c ≠ "+"%char.
Proof. destruct d; simpl; intros [= <- <-]; split; discriminate. Qed.

Lemma string_of_uint_nonempty (d : Decimal.uint) :
  d ≠ Decimal.Nil → ∃ c rest, NilEmpty.string_of_uint d = String c rest.
Proof. destruct d; [done|..]; intros _; simpl; by do 2 eexists. Qed.

Lemma Atoi_digits (d : Decimal.uint) :
  d ≠ Decimal.Nil → digits_value d 0 < 2 ^ 63 →
  strconv.Atoi (NilEmpty.string_of_uint d) = (digits_value d 0, None).
Proof.
  intros Hd Hlt.
  pose proof (digits_value_ge d 0 ltac:(lia)) as Hge.
  pose proof (Atoi_fast_loop_digits d 0) as Hfast.
  pose proof (ParseUint_loop_digits (NilEmpty.string_of_uint d) d 0 ltac:(lia)) as Hslow.
  destruct (string_of_uint_nonempty d Hd) as (c & rest & Es).
  destruct (string_of_uint_head d c rest Es) as [Hm Hp].
  rewrite Es in *. unfold strconv.Atoi.
  destruct ((0 <? strconv.strlen (String c rest)) && (strconv.strlen (String c rest) <? 19)).
  - rewrite !bool_decide_eq_false_2 by done. cbn [orb andb].
    by rewrite Hfast.
  - unfold strconv.ParseInt, strconv.ParseUint.
    rewrite !bool_decide_eq_false_2 by done. cbn [orb andb negb].
    rewrite Hslow by (change (2 ^ 64) with (2 * 2 ^ 63); lia).
    rewrite (proj2 (Z.leb_gt (2 ^ 63) (digits_value d 0))) by done.
    cbn [andb fmap option_fmap option_map]. by rewrite to_int64_small by lia.
Qed.

Lemma Atoi_minus_digits (d : Decimal.uint) :
  d ≠ Decimal.Nil → 0 < digits_value d 0 <= 2 ^ 63 →
  strconv.Atoi (String "-" (NilEmpty.string_of_uint d)) = (- digits_value d 0, None).
Proof.
  intros Hd Hv.
  pose proof (Atoi_fast_loop_digits d 0) as Hfast.
  pose proof (ParseUint_loop_digits (NilEmpty.string_of_uint d) d 0 ltac:(lia)) as Hslow.
  destruct (string_of_uint_nonempty d Hd) as (c & rest & Es).
  rewrite Es in *. unfold strconv.Atoi.
  destruct ((0 <? strconv.strlen (String "-" (String c rest)))
            && (strconv.strlen (String "-" (String c rest)) <? 19)).
  - rewrite (bool_decide_eq_true_2 ("-"%char = "-"%char)) by done. cbn [orb andb].
    assert (Hlen : (strconv.strlen (String c rest) <? 1) = false).
    { apply Z.ltb_ge. unfold strconv.strlen. simpl. lia. }
    rewrite Hlen. by rewrite Hfast.
  - unfold strconv.ParseInt, strconv.ParseUint.
    rewrite (bool_decide_eq_true_2 ("-"%char = "-"%char)) by done.
    rewrite (bool_decide_eq_false_2 ("-"%char = "+"%char)) by done.
    cbn [orb andb negb].
    rewrite Hslow by (change (2 ^ 64) with (2 * 2 ^ 63); lia).
    rewrite (proj2 (Z.ltb_ge (2 ^ 63) (digits_value d 0))) by lia.
    cbn [andb fmap option_fmap option_map]. by rewrite to_int64_neg.
Qed.

Lemma Atoi_fmt_d (n : Z) :
  - 2 ^ 63 <= n < 2 ^ 63 → strconv.Atoi (fmt_d n) = (n, None).
Proof.
  intros Hn. destruct n as [|p|p]; [by vm_compute|..]; unfold fmt_d; simpl.
  - pose proof (DecimalPos.Unsigned.to_uint_nonnil p) as Hd.
    unfold NilZero.string_of_uint.
    rewrite <- (digits_value_to_uint p).
    destruct (Pos.to_uint p) eqn:Ed; [done|..]; rewrite <- Ed in *;
      apply Atoi_digits; (done || rewrite digits_value_to_uint; lia).
  - pose proof (DecimalPos.Unsigned.to_uint_nonnil p) as Hd.
    unfold NilZero.string_of_uint.
    replace (Z.neg p) with (- digits_value (Pos.to_uint p) 0)
      by (rewrite digits_value_to_uint; lia).
    destruct (Pos.to_uint p) eqn:Ed; [done|..]; rewrite <- Ed in *;
      apply Atoi_minus_digits; (done || rewrite digits_value_to_uint; lia).
Qed.

Lemma sub_zero_bound (c : ascii) : 0 <= strconv.sub_zero c < 256.
Proof. unfold strconv.sub_zero. apply Z.mod_pos_bound. lia. Qed.

Lemma Atoi_fast_loop_bound (s : string) :
  ∀ acc r, 0 <= acc → strconv.Atoi_fast_loop s acc = Some r →
           0 <= r < (acc + 1) * 10 ^ strconv.strlen s.
Proof.
  induction s as [|c s IH]; intros acc r Hacc; cbn [strconv.Atoi_fast_loop].
  - intros [= <-]. change (10 ^ strconv.strlen "") with 1. lia.
  - pose proof (sub_zero_bound c) as Hc.
    destruct (Z.ltb_spec 9 (strconv.sub_zero c)) as [|Hle]; [done|].
    intros Hr. apply IH in Hr; [|lia].
    assert (Hlen : strconv.strlen (String c s) = Z.succ (strconv.strlen s)).
    { unfold strconv.strlen. cbn [String.length]. lia. }
    assert (Hpos : 0 <= strconv.strlen s) by (unfold strconv.strlen; lia).
    rewrite Hlen, Z.pow_succ_r by done.
    assert (0 < 10 ^ strconv.strlen s) by (apply Z.pow_pos_nonneg; lia).
    nia.
Qed.

Lemma Atoi_fast_loop_int64 (s : string) (r : Z) :
  strconv.strlen s < 19 → strconv.Atoi_fast_loop s 0 = Some r → 0 <= r < 2 ^ 63.
Proof.
  intros Hlen Hr. apply Atoi_fast_loop_bound in Hr; [|lia].
  assert (Hpos : 0 <= strconv.strlen s) by (unfold strconv.strlen; lia).
  assert (10 ^ strconv.strlen s <= 10 ^ 18) by (apply Z.pow_le_mono_r; lia).
  change (10 ^ 18) with 1000000000000000000 in *.
  change (2 ^ 63) with 9223372036854775808. lia.
Qed.

(** Whatever [Atoi] accepts fits the 64-bit [int]. *)
Lemma Atoi_range (s : string) (n : Z) :
  strconv.Atoi s = (n, None) → - 2 ^ 63 <= n < 2 ^ 63.
Proof.
  unfold strconv.Atoi.
  destruct ((0 <? strconv.strlen s) && (strconv.strlen s <? 19)) eqn:Elen.
  - apply andb_true_iff in Elen as [_ Hlt%Z.ltb_lt].
    destruct s as [|c rest]; [done|].
    assert (Hrest : strconv.strlen rest < 19).
    { unfold strconv.strlen in *. cbn [String.length] in Hlt. lia. }
    destruct (bool_decide (c = "-"%char)), (bool_decide (c = "+"%char));
      cbn [orb andb];
      try destruct (strconv.strlen rest <? 1); try done;
      match goal with
      | |- context [strconv.Atoi_fast_loop ?t 0] =>
          destruct (strconv.Atoi_fast_loop t 0) as [r|] eqn:Er; [|done];
          apply Atoi_fast_loop_int64 in Er; [|done]
      end;
      intros [= <-]; lia.
  - destruct (strconv.ParseInt s) as [i64 err] eqn:EP. destruct err; [done|].
    simpl. intros [= <-]. revert EP. unfold strconv.ParseInt.
    destruct s as [|c rest]; [done|].
    destruct (strconv.ParseUint _) as [un [[? ? []]|]]; try done;
      repeat (match goal with
              | |- context [if ?b then _ else _] => destruct b
              end; try done);
      intros [= <-]; apply to_int64_range.
Qed.

Section IntegersFromEnv.
Context {Rest SensorConfig : Type} `{!MqttSchema Rest} `{!SensorSchema SensorConfig}.
Local Abbreviation Config := (Config Rest SensorConfig).

(** X13. Every 64-bit integer passes through the environment unchanged:
    with [GOBOT_LUX_INTERVAL_S] set to the decimal rendering of [n], as
    [%d] prints it, [Atoi] returns [n], the lookup returns [n] with a nil
    error and the resolved configuration has [IntervalSecs = n]. *)
Theorem interval_round_trip (env : Env) (n : Z) :
  - 2 ^ 63 <= n < 2 ^ 63 →
  env !! "GOBOT_LUX_INTERVAL_S" = Some (fmt_d n) →
  strconv.Atoi (fmt_d n) = (n, None)
  ∧ fromEnvInt env "INTERVAL_S" = (n, None)
  ∧ IntervalSecs (ConfigFromEnv env : Config) = n.
Proof.
  intros Hn Henv. pose proof (Atoi_fmt_d n Hn) as Hatoi.
  assert (Hne : fmt_d n ≠ "").
  { intros E. rewrite E in Hatoi. by vm_compute in Hatoi. }
  assert (Hint : fromEnvInt env "INTERVAL_S" = (n, None)).
  { unfold fromEnvInt. rewrite (fromEnv_set env "INTERVAL_S" _ Henv Hne).
    by rewrite Hatoi. }
  split; [done|]. split; [done|].
  rewrite ConfigFromEnv_fields. simpl. by rewrite Hint.
Qed.

(** X14. No value read from the environment leaves the 64-bit [int]: the
    integer a lookup returns lies in [-2^63, 2^63), on failure it is -1,
    and so does the resolved [IntervalSecs], whatever the variable
    holds. *)
Theorem interval_fits_int64 (env : Env) (name : string) :
  - 2 ^ 63 <= fst (fromEnvInt env name) < 2 ^ 63
  ∧ (snd (fromEnvInt env name) ≠ None → fst (fromEnvInt env name) = -1)
  ∧ - 2 ^ 63 <= IntervalSecs (ConfigFromEnv env : Config) < 2 ^ 63.
Proof.
  assert (Hany : ∀ name', - 2 ^ 63 <= fst (fromEnvInt env name') < 2 ^ 63
                          ∧ (snd (fromEnvInt env name') ≠ None →
                             fst (fromEnvInt env name') = -1)).
  { intros name'. unfold fromEnvInt.
    destruct (fromEnv env name') as [val [e|]]; simpl; [split; [lia|done]|].
    destruct (strconv.Atoi val) as [parsed [e|]] eqn:Ea; simpl; [split; [lia|done]|].
    split; [by apply (Atoi_range val)|done]. }
  split; [apply Hany|]. split; [apply Hany|].
  rewrite ConfigFromEnv_fields. simpl.
  destruct (Hany "INTERVAL_S") as [Hr _].
  destruct (fromEnvInt env "INTERVAL_S") as [v [e|]]; simpl in *; [|done].
  unfold defaultIntervalSeconds. lia.
Qed.

End IntegersFromEnv.

Lemma interval_round_trip_witness :
  strconv.Atoi (fmt_d (-9223372036854775808)) = (-9223372036854775808, None)
  ∧ fromEnvInt {[ "GOBOT_LUX_INTERVAL_S" := "-9223372036854775808" ]} "INTERVAL_S"
    = (-9223372036854775808, None)
  ∧ IntervalSecs
      (ConfigFromEnv {[ "GOBOT_LUX_INTERVAL_S" := "-9223372036854775808" ]} : Sample.Config)
    = -9223372036854775808.
Proof.
  apply (interval_round_trip (Rest:=unit) (SensorConfig:=Sample.SensorConfig)
           {[ "GOBOT_LUX_INTERVAL_S" := "-9223372036854775808" ]} (-9223372036854775808));
    [lia | reflexivity].
Defined.

Lemma interval_fits_int64_witness :
  fst (fromEnvInt {[ "GOBOT_LUX_INTERVAL_S" := "99999999999999999999" ]} "INTERVAL_S") = -1.
Proof.
  destruct (interval_fits_int64 (Rest:=unit) (SensorConfig:=Sample.SensorConfig)
              {[ "GOBOT_LUX_INTERVAL_S" := "99999999999999999999" ]} "INTERVAL_S")
    as (_ & H & _).
  apply H. vm_compute. discriminate.
Defined.
